(** * rest-client: a shallow embedding of [restclient.js], [httperror.js]
    and [index.js]

    The JavaScript values the client handles are embedded as an inductive
    type; asynchronous functions are embedded by the way their promise
    settles ([Fulfilled] or [Rejected]), together with the requests they
    transmit; the network primitive [fetch] and the two third-party
    packages ([qs], [http-status-codes]) are the fields of a class the
    whole development is parametric in.  [JSON.stringify] and [JSON.parse]
    are embedded in full for the values of the embedding. *)

From Stdlib Require Import ZArith NArith List Bool Ascii String Lia.
From Stdlib Require Import DecimalString DecimalN DecimalPos DecimalFacts.
Import ListNotations.

Local Open Scope list_scope.
Local Open Scope string_scope.
Local Open Scope Z_scope.

(** ** JavaScript strings

    A string is a sequence of code units; the embedding keeps the code
    units below 256 (the Latin-1 range), one [ascii] each. *)

Definition code_unit (c : ascii) : N := N_of_ascii c.

Definition in_range (lo hi : N) (c : ascii) : bool :=
  ((lo <=? code_unit c) && (code_unit c <=? hi))%N.

Definition is_digit (c : ascii) : bool := in_range 48 57 c.

(** [/^[a-z0-9]/i] tests the first code unit only; with the [i] flag and
    no [u] flag a code unit above 127 never folds onto an ASCII letter. *)
Definition is_alnum (c : ascii) : bool :=
  is_digit c || in_range 65 90 c || in_range 97 122 c.

Definition alnum_leading (s : string) : bool :=
  match s with
  | String c _ => is_alnum c
  | EmptyString => false
  end.

(** [String.prototype.toLowerCase] on code units below 256: A-Z and the
    Latin-1 capitals (U+00C0..U+00DE except the multiplication sign) move
    up by 32, every other code unit is kept. *)
Definition lower_char (c : ascii) : ascii :=
  if in_range 65 90 c || (in_range 192 222 c && negb (code_unit c =? 215)%N)
  then ascii_of_N (code_unit c + 32)
  else c.

Fixpoint toLowerCase (s : string) : string :=
  match s with
  | EmptyString => EmptyString
  | String c r => String (lower_char c) (toLowerCase r)
  end.

(** [s.startsWith(p)] *)
Definition startsWith (s p : string) : bool := String.prefix p s.

(** [Array.prototype.join] on strings. *)
Fixpoint join (sep : string) (l : list string) : string :=
  match l with
  | [] => EmptyString
  | [s] => s
  | s :: r => s ++ sep ++ join sep r
  end.

(** Decimal numerals, as [Number.prototype.toString] prints an integer
    that a double holds exactly (any integer up to 2^53 in magnitude). *)
Definition N_to_string (n : N) : string :=
  NilZero.string_of_uint (N.to_uint n).

Definition Z_to_string (z : Z) : string :=
  match z with
  | Zneg p => String "-" (N_to_string (Npos p))
  | _ => N_to_string (Z.to_N z)
  end.

(** ** JavaScript values

    Plain data only: the primitives, arrays and ordinary objects.  Numbers
    are the integers (no fractions, no NaN, no infinities); an integer
    stands for the double of that value, which exists for every integer up
    to 2^53 in magnitude.  An object is the list of its own enumerable
    properties in [Object.keys] order. *)
Unset Elimination Schemes.
Inductive jsval : Type :=
| JUndefined
| JNull
| JBool (b : bool)
| JNum (n : Z)
| JStr (s : string)
| JArr (items : list jsval)
| JObj (props : list (string * jsval)).
Set Elimination Schemes.

Definition props : Type := list (string * jsval).

(** Induction on a value reaches the elements of an array and the values
    of the properties of an object. *)
Definition jsval_ind (Q : jsval -> Prop)
  (Hundefined : Q JUndefined) (Hnull : Q JNull)
  (Hbool : forall b, Q (JBool b)) (Hnum : forall n, Q (JNum n))
  (Hstr : forall s, Q (JStr s))
  (Harr : forall l, Forall Q l -> Q (JArr l))
  (Hobj : forall p, Forall (fun kv => Q (snd kv)) p -> Q (JObj p))
  : forall v, Q v :=
  fix ind (v : jsval) : Q v :=
    match v with
    | JUndefined => Hundefined
    | JNull => Hnull
    | JBool b => Hbool b
    | JNum n => Hnum n
    | JStr s => Hstr s
    | JArr l =>
        Harr l ((fix all (l : list jsval) : Forall Q l :=
                   match l with
                   | [] => Forall_nil Q
                   | x :: r => Forall_cons x (ind x) (all r)
                   end) l)
    | JObj p =>
        Hobj p ((fix all (p : list (string * jsval))
                   : Forall (fun kv => Q (snd kv)) p :=
                   match p with
                   | [] => Forall_nil _
                   | (k, x) :: r =>
                       Forall_cons (P := fun kv => Q (snd kv)) (k, x)
                                   (ind x) (all r)
                   end) p)
    end.

(** ToBoolean *)
Definition truthy (v : jsval) : bool :=
  match v with
  | JUndefined | JNull => false
  | JBool b => b
  | JNum n => negb (n =? 0)
  | JStr s => negb (s =? EmptyString)%string
  | JArr _ | JObj _ => true
  end.

(** [a || b] *)
Definition js_or (a b : jsval) : jsval := if truthy a then a else b.

(** ToString, as a template literal applies it. *)
Fixpoint to_string (v : jsval) : string :=
  match v with
  | JUndefined => "undefined"
  | JNull => "null"
  | JBool true => "true"
  | JBool false => "false"
  | JNum n => Z_to_string n
  | JStr s => s
  | JArr l =>
      join "," (map (fun x => match x with
                              | JUndefined | JNull => EmptyString
                              | _ => to_string x
                              end) l)
  | JObj _ => "[object Object]"
  end.

(** *** Ordinary objects

    The operations on property lists are generic in the type of the
    values, so that the option bag handed to [fetch], whose [body] is a
    promise, is an object like the others. *)

(** The own property [o[k]], if there is one. *)
Fixpoint obj_lookup {A} (o : list (string * A)) (k : string) : option A :=
  match o with
  | [] => None
  | (k', v) :: r => if (k' =? k)%string then Some v else obj_lookup r k
  end.

Definition obj_has {A} (o : list (string * A)) (k : string) : bool :=
  match obj_lookup o k with Some _ => true | None => false end.

(** [o[k]] on an ordinary object: [undefined] when the key is absent (the
    client reads no name that [Object.prototype] defines). *)
Definition obj_get (o : props) (k : string) : jsval :=
  match obj_lookup o k with Some v => v | None => JUndefined end.

(** [Object.keys(o)] *)
Definition obj_keys {A} (o : list (string * A)) : list string := map fst o.

Fixpoint all_digits (s : string) : bool :=
  match s with
  | EmptyString => true
  | String c r => is_digit c && all_digits r
  end.

(** An array index is the canonical numeral of an integer below 2^32 - 1;
    such keys come first in [Object.keys], in ascending order. *)
Definition array_index (k : string) : option N :=
  match k with
  | EmptyString => None
  | String c r =>
      if all_digits k
         && (negb (code_unit c =? 48)%N || (r =? EmptyString)%string) then
        match NilZero.uint_of_string k with
        | Some d => if (N.of_uint d <? 4294967295)%N
                    then Some (N.of_uint d) else None
        | None => None
        end
      else None
  end.

Fixpoint obj_update {A} (k : string) (v : A) (o : list (string * A))
  : list (string * A) :=
  match o with
  | [] => []
  | (k', v') :: r =>
      if (k' =? k)%string then (k', v) :: r else (k', v') :: obj_update k v r
  end.

Fixpoint obj_insert_index {A} (i : N) (k : string) (v : A)
  (o : list (string * A)) : list (string * A) :=
  match o with
  | [] => [(k, v)]
  | (k', v') :: r =>
      match array_index k' with
      | Some j => if (i <? j)%N then (k, v) :: o
                  else (k', v') :: obj_insert_index i k v r
      | None => (k, v) :: o
      end
  end.

(** CreateDataProperty on an ordinary object: an existing key keeps its
    place and takes the new value; a new array index goes among the
    indices; any other new key goes last. *)
Definition obj_set {A} (k : string) (v : A) (o : list (string * A))
  : list (string * A) :=
  if obj_has o k then obj_update k v o
  else match array_index k with
       | Some i => obj_insert_index i k v o
       | None => (o ++ [(k, v)])%list
       end.

(** [delete o[k]] *)
Fixpoint obj_delete {A} (k : string) (o : list (string * A))
  : list (string * A) :=
  match o with
  | [] => []
  | (k', v) :: r =>
      if (k' =? k)%string then obj_delete k r else (k', v) :: obj_delete k r
  end.

Fixpoint indexed {A} (i : N) (l : list A) : list (string * A) :=
  match l with
  | [] => []
  | x :: r => (N_to_string i, x) :: indexed (N.succ i) r
  end.

Fixpoint chars (s : string) : list jsval :=
  match s with
  | EmptyString => []
  | String c r => JStr (String c EmptyString) :: chars r
  end.

(** The own enumerable string-keyed properties of a value, in order: what
    [Object.keys] and an object spread see.  A primitive other than a
    string has none. *)
Definition own_entries (v : jsval) : props :=
  match v with
  | JObj p => p
  | JArr l => indexed 0%N l
  | JStr s => indexed 0%N (chars s)
  | _ => []
  end.

(** [{...target, ...src}]: CopyDataProperties, one CreateDataProperty per
    own property of the source, in order. *)
Definition obj_assign (target : props) (src : jsval) : props :=
  fold_left (fun o kv => obj_set (fst kv) (snd kv) o) (own_entries src) target.

(** ** JSON

    [JSON.stringify] and [JSON.parse] on the values above.  The text is
    handled code unit by code unit. *)

Definition dquote : ascii := "034"%char.
Definition backslash : ascii := "092"%char.

Definition hex_digit (n : N) : ascii :=
  if (n <? 10)%N then ascii_of_N (48 + n) else ascii_of_N (87 + n).

(** QuoteJSONString, one code unit: the two-character escapes, then a
    lowercase [\u00xx] for the other control characters, then the code unit
    itself. *)
Definition escape_char (c : ascii) : string :=
  if (code_unit c =? 34)%N then String backslash (String dquote EmptyString)
  else if (code_unit c =? 92)%N then
    String backslash (String backslash EmptyString)
  else if (code_unit c =? 8)%N then String backslash "b"
  else if (code_unit c =? 12)%N then String backslash "f"
  else if (code_unit c =? 10)%N then String backslash "n"
  else if (code_unit c =? 13)%N then String backslash "r"
  else if (code_unit c =? 9)%N then String backslash "t"
  else if (code_unit c <? 32)%N then
    String backslash
      (String "u" (String "0" (String "0"
         (String (hex_digit (code_unit c / 16))
            (String (hex_digit (code_unit c mod 16)) EmptyString)))))
  else String c EmptyString.

Fixpoint escape (s : string) : string :=
  match s with
  | EmptyString => EmptyString
  | String c r => escape_char c ++ escape r
  end.

Definition quote (s : string) : string :=
  String dquote (escape s ++ String dquote EmptyString).

(** SerializeJSONProperty: [None] stands for the result [undefined].  An
    [undefined] array element is written as null, an object property whose
    value is [undefined] is left out. *)
Fixpoint serialize (v : jsval) : option string :=
  match v with
  | JUndefined => None
  | JNull => Some "null"
  | JBool true => Some "true"
  | JBool false => Some "false"
  | JNum n => Some (Z_to_string n)
  | JStr s => Some (quote s)
  | JArr l =>
      Some ("[" ++ join ","
                     (map (fun x => match serialize x with
                                    | Some t => t
                                    | None => "null"
                                    end) l) ++ "]")
  | JObj p =>
      Some ("{" ++ join ","
                     (flat_map (fun kv => let '(k, x) := kv in
                                          match serialize x with
                                          | Some t => [quote k ++ ":" ++ t]
                                          | None => []
                                          end) p) ++ "}")
  end.

(** [JSON.stringify(v)] *)
Definition JSON_stringify (v : jsval) : jsval :=
  match serialize v with
  | Some s => JStr s
  | None => JUndefined
  end.

Definition is_ws (c : ascii) : bool :=
  (code_unit c =? 9)%N || (code_unit c =? 10)%N
  || (code_unit c =? 13)%N || (code_unit c =? 32)%N.

Fixpoint skip_ws (s : string) : string :=
  match s with
  | String c r => if is_ws c then skip_ws r else s
  | EmptyString => s
  end.

Fixpoint strip_prefix (p s : string) : option string :=
  match p, s with
  | EmptyString, _ => Some s
  | String a p', String b s' =>
      if (code_unit a =? code_unit b)%N then strip_prefix p' s' else None
  | String _ _, EmptyString => None
  end.

Definition hex_value (c : ascii) : option N :=
  if is_digit c then Some (code_unit c - 48)%N
  else if in_range 97 102 c then Some (code_unit c - 87)%N
  else if in_range 65 70 c then Some (code_unit c - 55)%N
  else None.

Definition hex4 (a b c d : ascii) : option N :=
  match hex_value a, hex_value b, hex_value c, hex_value d with
  | Some x, Some y, Some z, Some w => Some (((x * 16 + y) * 16 + z) * 16 + w)%N
  | _, _, _, _ => None
  end.

(** The character a two-character escape stands for. *)
Definition unescape (e : ascii) : option ascii :=
  if (code_unit e =? 34)%N then Some dquote
  else if (code_unit e =? 92)%N then Some backslash
  else if (code_unit e =? 47)%N then Some "/"%char
  else if (code_unit e =? 98)%N then Some (ascii_of_N 8)
  else if (code_unit e =? 102)%N then Some (ascii_of_N 12)
  else if (code_unit e =? 110)%N then Some (ascii_of_N 10)
  else if (code_unit e =? 114)%N then Some (ascii_of_N 13)
  else if (code_unit e =? 116)%N then Some (ascii_of_N 9)
  else None.

Definition cons_char (c : ascii) (r : option (string * string))
  : option (string * string) :=
  match r with
  | Some (s, rest) => Some (String c s, rest)
  | None => None
  end.

(** The characters of a JSON string after its opening quote, up to and
    including the closing quote.  A [\uXXXX] escape above 255 has no
    counterpart in the embedding and is refused. *)
Fixpoint parse_chars (s : string) : option (string * string) :=
  match s with
  | EmptyString => None
  | String c r =>
      if (code_unit c =? 34)%N then Some (EmptyString, r)
      else if (code_unit c =? 92)%N then
        match r with
        | String e r' =>
            if (code_unit e =? 117)%N then
              match r' with
              | String h1 (String h2 (String h3 (String h4 r''))) =>
                  match hex4 h1 h2 h3 h4 with
                  | Some n => if (n <? 256)%N
                              then cons_char (ascii_of_N n) (parse_chars r'')
                              else None
                  | None => None
                  end
              | _ => None
              end
            else
              match unescape e with
              | Some ch => cons_char ch (parse_chars r')
              | None => None
              end
        | EmptyString => None
        end
      else if (code_unit c <? 32)%N then None
      else cons_char c (parse_chars r)
  end.

Fixpoint span_digits (s : string) : string * string :=
  match s with
  | String c r =>
      if is_digit c then let (ds, rest) := span_digits r in (String c ds, rest)
      else (EmptyString, s)
  | EmptyString => (EmptyString, EmptyString)
  end.

Definition starts_fraction (s : string) : bool :=
  match s with
  | String c _ =>
      (code_unit c =? 46)%N || (code_unit c =? 101)%N || (code_unit c =? 69)%N
  | EmptyString => false
  end.

(** The greatest safe integer, 2^53 - 1. *)
Definition MAX_SAFE_INTEGER : N := 9007199254740991.

(** The integer part of a JSON number: 0, or a digit string without a
    leading zero.  A fraction, an exponent and an integer beyond the safe
    ones have no counterpart in the embedding and are refused. *)
Definition parse_nat (s : string) : option (N * string) :=
  let (ds, rest) := span_digits s in
  match ds with
  | EmptyString => None
  | String c t =>
      if (code_unit c =? 48)%N && negb (t =? EmptyString)%string then None
      else if starts_fraction rest then None
      else match NilZero.uint_of_string ds with
           | Some d =>
               if (N.of_uint d <=? MAX_SAFE_INTEGER)%N
               then Some (N.of_uint d, rest)
               else None
           | None => None
           end
  end.

(** CreateDataProperty for each member, in the order of the text: a
    repeated key keeps its first place and its last value. *)
Definition build_object (members : list (string * jsval)) : props :=
  fold_left (fun o kv => obj_set (fst kv) (snd kv) o) members [].

(** The text after white space and after the code unit [n], when that
    is what comes next. *)
Definition expect (n : N) (s : string) : option string :=
  match skip_ws s with
  | String c r => if (code_unit c =? n)%N then Some r else None
  | EmptyString => None
  end.

(** The JSON grammar by recursive descent.  [fuel] bounds the depth of
    the recursion; [JSON_parse] supplies twice the length of the text and
    two more, which no text exhausts ([parse_value_fuel_enough]). *)
Fixpoint parse_value (fuel : nat) (s : string) {struct fuel}
  : option (jsval * string) :=
  match fuel with
  | O => None
  | S f =>
      match skip_ws s with
      | EmptyString => None
      | String c r =>
          if (code_unit c =? 34)%N then
            match parse_chars r with
            | Some (str, rest) => Some (JStr str, rest)
            | None => None
            end
          else if (code_unit c =? 91)%N then
            match expect 93 r with
            | Some rest => Some (JArr [], rest)
            | None => match parse_elements f r with
                      | Some (l, rest) => Some (JArr l, rest)
                      | None => None
                      end
            end
          else if (code_unit c =? 123)%N then
            match expect 125 r with
            | Some rest => Some (JObj [], rest)
            | None => match parse_members f r with
                      | Some (l, rest) => Some (JObj (build_object l), rest)
                      | None => None
                      end
            end
          else if (code_unit c =? 45)%N then
            match parse_nat r with
            | Some (n, rest) => Some (JNum (- Z.of_N n), rest)
            | None => None
            end
          else if is_digit c then
            match parse_nat (String c r) with
            | Some (n, rest) => Some (JNum (Z.of_N n), rest)
            | None => None
            end
          else
            match strip_prefix "null" (String c r) with
            | Some rest => Some (JNull, rest)
            | None =>
                match strip_prefix "true" (String c r) with
                | Some rest => Some (JBool true, rest)
                | None =>
                    match strip_prefix "false" (String c r) with
                    | Some rest => Some (JBool false, rest)
                    | None => None
                    end
                end
            end
      end
  end

with parse_elements (fuel : nat) (s : string) {struct fuel}
  : option (list jsval * string) :=
  match fuel with
  | O => None
  | S f =>
      match parse_value f s with
      | Some (v, r) =>
          match expect 44 r with
          | Some r' =>
              match parse_elements f r' with
              | Some (l, rest) => Some (v :: l, rest)
              | None => None
              end
          | None =>
              match expect 93 r with
              | Some rest => Some ([v], rest)
              | None => None
              end
          end
      | None => None
      end
  end

with parse_members (fuel : nat) (s : string) {struct fuel}
  : option (list (string * jsval) * string) :=
  match fuel with
  | O => None
  | S f =>
      match expect 34 s with
      | Some r =>
          match parse_chars r with
          | Some (k, r1) =>
              match expect 58 r1 with
              | Some r2 =>
                  match parse_value f r2 with
                  | Some (v, r3) =>
                      match expect 44 r3 with
                      | Some r4 =>
                          match parse_members f r4 with
                          | Some (l, rest) => Some ((k, v) :: l, rest)
                          | None => None
                          end
                      | None =>
                          match expect 125 r3 with
                          | Some rest => Some ([(k, v)], rest)
                          | None => None
                          end
                      end
                  | None => None
                  end
              | None => None
              end
          | None => None
          end
      | None => None
      end
  end.

(** [JSON.parse(text)]: [None] when the text is not JSON of the embedded
    fragment.  That is a text [JSON.parse] refuses with a SyntaxError, or a
    text that holds what the embedding has no value for: a number with a
    fraction or an exponent, an integer beyond the safe ones, an escape
    above 255. *)
Definition JSON_parse (text : string) : option jsval :=
  match parse_value (2 * String.length text + 2) text with
  | Some (v, rest) =>
      match skip_ws rest with
      | EmptyString => Some v
      | String _ _ => None
      end
  | None => None
  end.


(** The white space [parseInt] trims (StrWhiteSpaceChar), among the code
    units below 256: tab, LF, VT, FF, CR, the space and the no-break
    space. *)
Definition is_str_ws (c : ascii) : bool :=
  in_range 9 13 c || (code_unit c =? 32)%N || (code_unit c =? 160)%N.

Fixpoint skip_str_ws (s : string) : string :=
  match s with
  | String c r => if is_str_ws c then skip_str_ws r else s
  | EmptyString => s
  end.

(** [parseInt(s, 10)] on a string: optional white space, an optional
    sign, then the longest run of digits; [None] stands for NaN. *)
Definition parseInt_string (s : string) : option Z :=
  let digits_of (t : string) : option N :=
    match NilZero.uint_of_string (fst (span_digits t)) with
    | Some Decimal.Nil | None => None
    | Some d => Some (N.of_uint d)
    end in
  match skip_str_ws s with
  | String "-" t => option_map (fun n => - Z.of_N n) (digits_of t)
  | String "+" t => option_map Z.of_N (digits_of t)
  | t => option_map Z.of_N (digits_of t)
  end.

(** [parseInt(v, 10)]: a safe integer is printed in plain digits and read
    back, which gives the integer itself; anything else goes through
    ToString. *)
Definition parseInt (v : jsval) : option Z :=
  match v with
  | JNum n => Some n
  | _ => parseInt_string (to_string v)
  end.

(** A parameter with a default value takes it when the argument is
    [undefined]. *)
Definition default (v d : jsval) : jsval :=
  match v with
  | JUndefined => d
  | _ => v
  end.

(** ** Decoded responses, errors and promises *)

(** What a response body resolves to: plain data, or for a binary body
    the buffer over its bytes or the stream handle. *)
Inductive decoded : Type :=
| Data (v : jsval)
| ArrayBuffer (bytes : string)
| ReadableStream (bytes : string).

(** The fields of an [HTTPError] ([httperror.js]): the message and the
    name it inherits from [Error], and the two private fields behind the
    getters [code] and [response]. *)
Record HTTPError : Type := {
  message : string;
  name : string;
  code : Z;
  response : decoded
}.

(** What a promise is rejected with (what a function throws). *)
Inductive jserror : Type :=
| TypeError
| SyntaxError
| Error (msg : string)
| IsHTTPError (e : HTTPError)
| Failure (reason : jsval).

(** How the promise of an async function settles; also how a plain call
    ends, by a value or by a throw. *)
Inductive promise (A : Type) : Type :=
| Fulfilled (a : A)
| Rejected (e : jserror).

Arguments Fulfilled {A} a.
Arguments Rejected {A} e.

Definition bind {A B} (m : promise A) (k : A -> promise B) : promise B :=
  match m with
  | Fulfilled a => k a
  | Rejected e => Rejected e
  end.

Notation "x <- m ;; k" := (bind m (fun x => k))
  (at level 61, m at next level, right associativity).

(** Reading the property [v.k]: a TypeError on [null] and [undefined],
    the own property of an object, the length and the elements of an array
    or a string, and [undefined] otherwise. *)
Definition get_prop (v : jsval) (k : string) : promise jsval :=
  match v with
  | JUndefined | JNull => Rejected TypeError
  | JObj p => Fulfilled (obj_get p k)
  | JArr l =>
      if (k =? "length")%string
      then Fulfilled (JNum (Z.of_nat (List.length l)))
      else Fulfilled (obj_get (indexed 0%N l) k)
  | JStr s =>
      if (k =? "length")%string
      then Fulfilled (JNum (Z.of_nat (String.length s)))
      else Fulfilled (obj_get (indexed 0%N (chars s)) k)
  | JBool _ | JNum _ => Fulfilled JUndefined
  end.

(** [v.k || d] *)
Definition prop_or (v : jsval) (k : string) (d : jsval) : promise jsval :=
  x <- get_prop v k ;; Fulfilled (js_or x d).

(** [delete v.k] *)
Definition delete_prop (v : jsval) (k : string) : jsval :=
  match v with
  | JObj p => JObj (obj_delete k p)
  | _ => v
  end.

(** [v.startsWith(p)] and [v.toLowerCase()] on an arbitrary value: only a
    string has these methods, the call is a TypeError on anything else. *)
Definition call_startsWith (v : jsval) (p : string) : promise bool :=
  match v with
  | JStr s => Fulfilled (startsWith s p)
  | _ => Rejected TypeError
  end.

Definition call_toLowerCase (v : jsval) : promise jsval :=
  match v with
  | JStr s => Fulfilled (JStr (toLowerCase s))
  | _ => Rejected TypeError
  end.

(** ** The platform *)

(** The [Response] of the Fetch standard, by what its members give.
    [headers] holds the own enumerable properties of [result.headers], in
    order: [getHeader] reads the headers through [Object.keys], and sees
    nothing else of them. *)
Module Response.

Record t : Type := mk {
  status : Z;
  statusText : string;
  headers : props;
  text : promise string;
  json : promise jsval;
  arrayBuffer : promise string;
  body : string
}.

(** [ok] is true for a status from 200 to 299. *)
Definition ok (r : t) : bool := (200 <=? status r) && (status r <=? 299).

(** A response as [fetch] gives it.  Its [headers] are a [Headers]
    object of the Fetch standard, which keeps the header list in an
    internal slot and has no own enumerable property: [Object.keys] of it
    is empty, whatever headers the server sent.  Only a stand-in whose
    [headers] are a plain object shows header names as keys. *)
Definition standard (r : t) : bool :=
  match headers r with
  | [] => true
  | _ :: _ => false
  end.

(** The response over a payload: [text()] gives the payload, [json()]
    parses it.  Meant for a payload inside the fragment of JSON that
    [JSON_parse] reads: for a number with a fraction or an exponent, which
    the code decodes, the embedding has no value. *)
Definition of_payload (status : Z) (statusText : string) (headers : props)
  (payload : string) : t :=
  {| status := status;
     statusText := statusText;
     headers := headers;
     text := Fulfilled payload;
     json := match JSON_parse payload with
             | Some v => Fulfilled v
             | None => Rejected SyntaxError
             end;
     arrayBuffer := Fulfilled payload;
     body := payload |}.

End Response.

(** What [parseBody] hands over as the request body: a value, or a form. *)
Inductive wire : Type :=
| Raw (v : jsval)
| FormData (entries : list (string * string)).

(** A member of the option bag given to [fetch]: a plain value, or a
    promise. *)
Inductive fetchval : Type :=
| Plain (v : jsval)
| Promise (p : promise wire).

Definition fetchOptions : Type := list (string * fetchval).

(** The global [fetch] and the two packages the client imports; none of
    them is part of the repository.  [getStatusText] may throw. *)
Class Platform : Type := {
  fetch : string -> fetchOptions -> promise Response.t;
  Qs_stringify : jsval -> string;
  getStatusText : Z -> promise string
}.

(** What a call does to the outside, in order. *)
Inductive event : Type :=
| Sent (url : string) (options : fetchOptions)
| Slept (ms : Z).

(** An async function that reaches the outside: how it settles, and what
    it did. *)
Definition io (A : Type) : Type := (promise A * list event)%type.

Definition lift {A} (m : promise A) : io A := (m, []).

Definition throw {A} (e : jserror) : io A := (Rejected e, []).

Definition io_bind {A B} (m : io A) (k : A -> io B) : io B :=
  match m with
  | (Fulfilled a, tr) => let (r, tr') := k a in (r, (tr ++ tr')%list)
  | (Rejected e, tr) => (Rejected e, tr)
  end.

Notation "x <-- m ;; k" := (io_bind m (fun x => k))
  (at level 61, m at next level, right associativity).

(** ** [httperror.js] *)

(** The getter [statusText]: the reason phrase of the code, looked up on
    every read. *)
Definition statusText {P : Platform} (e : HTTPError) : promise string :=
  getStatusText (code e).

(** [new HTTPError(code, msg = null, response = {})].  The lookup of the
    reason phrase comes first and may throw; an empty or missing message is
    replaced by the reason phrase.  The code is a number, the status of a
    response: [parseInt(code, 10)] is that number. *)
Definition new_HTTPError {P : Platform} (code : Z) (msg : option string)
  (response : option decoded) : promise HTTPError :=
  statusText <- getStatusText code ;;
  let msg := match msg with
             | Some m => if (m =? EmptyString)%string then statusText else m
             | None => statusText
             end in
  Fulfilled {| message := msg;
               name := "HTTPError";
               code := code;
               response := match response with
                           | Some r => r
                           | None => Data (JObj [])
                           end |}.

(** ** [restclient.js] *)

(** [getHeader(headers, name)] *)
Definition getHeader (headers : props) (name : string) : jsval :=
  let lname := toLowerCase name in
  let key :=
    find (fun x => (toLowerCase x =? lname)%string)
         (filter alnum_leading (obj_keys headers)) in
  match key with
  | Some k => if truthy (JStr k) then obj_get headers k else JNull
  | None => JNull
  end.

(** The two methods a subclass overrides. *)
Class Hooks : Type := {
  resolveHeaders : string -> string -> jsval -> jsval -> jsval -> promise jsval;
  transform : decoded -> promise decoded
}.

Module RestClient.

(** The private fields of an instance. *)
Record t : Type := mk {
  baseUrl : string;
  headers : props;
  simulatedDelay : Z
}.

(** The field initialiser of [#headers]. *)
Definition initial_headers : props :=
  [("Accept", JStr "application/json");
   ("Content-Type", JStr "application/json")].

(** [updateHeaders(headers = {})] *)
Definition updateHeaders (this : t) (new_headers : jsval) : t :=
  let new_headers := default new_headers (JObj []) in
  {| baseUrl := baseUrl this;
     headers := obj_assign (obj_assign [] (JObj (headers this))) new_headers;
     simulatedDelay := simulatedDelay this |}.

(** [constructor(baseUrl, options = {})].  A delay that parses to NaN is
    kept as 0: the field is private, and its two readers, a truth test
    and [setTimeout], treat NaN and 0 alike. *)
Definition new (baseUrl : string) (options : jsval) : promise t :=
  let options := default options (JObj []) in
  if negb (truthy (JStr baseUrl)) then Rejected (Error "missing baseUrl")
  else
    headers <- prop_or options "headers" (JObj []) ;;
    simulatedDelay <- get_prop options "simulatedDelay" ;;
    let this := updateHeaders
                  {| baseUrl := baseUrl;
                     headers := initial_headers;
                     simulatedDelay := 0 |}
                  headers in
    Fulfilled {| baseUrl := RestClient.baseUrl this;
                 headers := RestClient.headers this;
                 simulatedDelay :=
                   if truthy simulatedDelay then
                     match parseInt simulatedDelay with
                     | Some n => n
                     | None => 0
                     end
                   else 0 |}.

(** [_simulateDelay()] *)
Definition _simulateDelay (this : t) : io unit :=
  (Fulfilled tt, [Slept (simulatedDelay this)]).

(** [s.replace(/\?$/, '')] *)
Fixpoint strip_trailing_question_mark (s : string) : string :=
  match s with
  | EmptyString => EmptyString
  | String c r =>
      match r with
      | EmptyString => if (code_unit c =? 63)%N then EmptyString else s
      | String _ _ => String c (strip_trailing_question_mark r)
      end
  end.

(** [fullRoute(url, params = {})] *)
Definition fullRoute {P : Platform} (this : t) (url : string) (params : jsval)
  : string :=
  let params := default params (JObj []) in
  let sqs := Qs_stringify params in
  strip_trailing_question_mark (baseUrl this ++ url ++ "?" ++ sqs).

(** [parseBody(body, headers)] *)
Definition parseBody (body : jsval) (headers : props) : promise wire :=
  if negb (truthy body) then Fulfilled (Raw body)
  else
    let contentType := getHeader headers "content-type" in
    is_text <- call_startsWith contentType "text/" ;;
    if is_text then Fulfilled (Raw (JStr (to_string body)))
    else
      is_json <- call_startsWith contentType "application/json" ;;
      if is_json then Fulfilled (Raw (JSON_stringify body))
      else
        is_form <- call_startsWith contentType "multipart/form-data" ;;
        if is_form then
          Fulfilled
            (FormData
               (map (fun k => (k, to_string (obj_get (own_entries body) k)))
                    (obj_keys (own_entries body))))
        else Fulfilled (Raw body).

(** [resolveResponse(result, forceType = null, resolveStreams = false)] *)
Definition resolveResponse (result : Response.t)
  (forceType resolveStreams : jsval) : promise decoded :=
  let forceType := default forceType JNull in
  let resolveStreams := default resolveStreams (JBool false) in
  contentType <-
    (if truthy forceType then Fulfilled forceType
     else call_toLowerCase
            (getHeader (Response.headers result) "content-type")) ;;
  is_text <- call_startsWith contentType "text/" ;;
  if is_text then
    s <- Response.text result ;; Fulfilled (Data (JStr s))
  else
    is_json <- call_startsWith contentType "application/json" ;;
    if is_json then
      v <- Response.json result ;; Fulfilled (Data v)
    else if truthy resolveStreams then
      b <- Response.arrayBuffer result ;; Fulfilled (ArrayBuffer b)
    else Fulfilled (ReadableStream (Response.body result)).

(** The hooks of the base class. *)
Definition base : Hooks := {|
  resolveHeaders := fun _ _ _ _ _ => Fulfilled (JObj []);
  transform := fun data => Fulfilled data
|}.

(** [_fetch(route, method = 'GET', params = {}, body = null,
    options = {})] *)
Definition _fetch {P : Platform} {K : Hooks} (this : t) (route : string)
  (method : string) (params body options : jsval) : io decoded :=
  let params := default params (JObj []) in
  let body := default body JNull in
  let options := default options (JObj []) in
  if negb (truthy (JStr route)) then throw (Error "Route is not defined")
  else
    let fullRoute := fullRoute this route params in
    explicit <-- lift (prop_or options "headers" (JObj [])) ;;
    resolved <-- lift (resolveHeaders route method params body options) ;;
    let headers :=
      obj_assign (obj_assign (obj_assign [] (JObj (headers this))) explicit)
                 resolved in
    passthrough <-- lift (prop_or options "fetchOptions" (JObj [])) ;;
    let fetchOptions :=
      fold_left (fun o kv => obj_set (fst kv) (Plain (snd kv)) o)
                (own_entries passthrough)
                [("method", Plain (JStr method));
                 ("headers", Plain (JObj headers));
                 ("body", Promise (parseBody body headers))] in
    result <-- (fetch fullRoute fetchOptions, [Sent fullRoute fetchOptions]) ;;
    forceType <-- lift (prop_or options "forceType" JNull) ;;
    resolveStreams <-- lift (prop_or options "resolveStreams" (JBool false)) ;;
    response <-- lift (resolveResponse result forceType resolveStreams) ;;
    if negb (Response.ok result) then
      e <-- lift (new_HTTPError (Response.status result)
                    (Some (Response.statusText result)) (Some response)) ;;
      throw (IsHTTPError e)
    else
      _ <-- (if truthy (JNum (simulatedDelay this))
             then _simulateDelay this
             else lift (Fulfilled tt)) ;;
      lift (transform response).

(** [get(route, query = {}, options = {})] *)
Definition get {P : Platform} {K : Hooks} (this : t) (route : string)
  (query options : jsval) : io decoded :=
  let query := default query (JObj []) in
  let options := default options (JObj []) in
  _fetch this route "GET" query JNull options.

(** [post(route, body, options = {})] *)
Definition post {P : Platform} {K : Hooks} (this : t) (route : string)
  (body options : jsval) : io decoded :=
  let options := default options (JObj []) in
  query <-- lift (prop_or options "query" (JObj [])) ;;
  let options := delete_prop options "query" in
  _fetch this route "POST" query body options.

(** [put(route, body, options = {})] *)
Definition put {P : Platform} {K : Hooks} (this : t) (route : string)
  (body options : jsval) : io decoded :=
  let options := default options (JObj []) in
  query <-- lift (prop_or options "query" (JObj [])) ;;
  let options := delete_prop options "query" in
  _fetch this route "PUT" query body options.

(** [patch(route, body, options = {})] *)
Definition patch {P : Platform} {K : Hooks} (this : t) (route : string)
  (body options : jsval) : io decoded :=
  let options := default options (JObj []) in
  query <-- lift (prop_or options "query" (JObj [])) ;;
  let options := delete_prop options "query" in
  _fetch this route "PATCH" query body options.

(** [delete(route, query = {}, options = {})]: the call gives [_fetch]
    four arguments, so [options] lands in the place of [body] and the
    fifth parameter is [undefined]. *)
Definition delete {P : Platform} {K : Hooks} (this : t) (route : string)
  (query options : jsval) : io decoded :=
  let query := default query (JObj []) in
  let options := default options (JObj []) in
  _fetch this route "DELETE" query options JUndefined.

End RestClient.

(** ** [index.js] *)

(** [simpleFetch(url, method = 'GET', params = {}, body = {},
    options = {})]; [None] is a [method] left out.  The client is an
    instance of the base class. *)
Definition simpleFetch {P : Platform} (url : string) (method : option string)
  (params body options : jsval) : io decoded :=
  let method := match method with Some m => m | None => "GET" end in
  let params := default params (JObj []) in
  let body := default body (JObj []) in
  let options := default options (JObj []) in
  api <-- lift (RestClient.new url JUndefined) ;;
  RestClient._fetch (K := RestClient.base) api EmptyString method params body
    options.

(** ** Notions the statements use *)

(** The header lookup as the specification words it: the value of the
    first entry whose key begins with a letter or a digit and equals the
    name when case is ignored; null when there is none. *)
Definition lookup_spec (headers : props) (name : string) : jsval :=
  match find (fun kv => alnum_leading (fst kv)
                        && (toLowerCase (fst kv) =? toLowerCase name)%string)
             headers with
  | Some (_, v) => v
  | None => JNull
  end.

(** No key of the mapping is the name, whatever the casing. *)
Definition header_absent (headers : props) (name : string) : Prop :=
  forall k, In k (obj_keys headers) -> toLowerCase k <> toLowerCase name.

(** The value the last entry under [k] holds.  In a property list without
    repeated keys, which is what an object is, this is the property. *)
Definition obj_last {A} (o : list (string * A)) (k : string) : option A :=
  obj_lookup (rev o) k.

(** [k] may come before [k'] in the property order of an object: the keys
    differ, array indices ascend, and no other key precedes an index. *)
Definition key_before (k k' : string) : bool :=
  negb (k =? k')%string
  && match array_index k, array_index k' with
     | Some i, Some j => (i <? j)%N
     | Some _, None => true
     | None, Some _ => false
     | None, None => true
     end.

(** The keys are in the order an object keeps them. *)
Fixpoint property_order (ks : list string) : bool :=
  match ks with
  | [] => true
  | k :: r => forallb (key_before k) r && property_order r
  end.

(** The values JSON text can carry: null, booleans, numbers (here the
    safe integers, up to [Number.MAX_SAFE_INTEGER] in magnitude), strings,
    arrays and objects of such values, the keys of an object in property
    order; [undefined] nowhere. *)
Fixpoint json_value (v : jsval) : bool :=
  match v with
  | JUndefined => false
  | JNull | JBool _ | JStr _ => true
  | JNum n => (Z.abs n <=? 9007199254740991)
  | JArr l => forallb json_value l
  | JObj p =>
      property_order (map fst p)
      && forallb (fun kv => let '(_, x) := kv in json_value x) p
  end.

(** The text of an array element and of an object member, as
    [serialize] writes them. *)
Definition element_text (x : jsval) : string :=
  match serialize x with
  | Some t => t
  | None => "null"
  end.

Definition member_text (kv : string * jsval) : list string :=
  let '(k, x) := kv in
  match serialize x with
  | Some t => [quote k ++ ":" ++ t]
  | None => []
  end.

(** What may follow a value inside JSON text. *)
Definition delimited (rest : string) : bool :=
  match rest with
  | EmptyString => true
  | String c _ =>
      (code_unit c =? 44)%N || (code_unit c =? 93)%N || (code_unit c =? 125)%N
  end.

(** A code unit a value can start with: no white space, no closing
    bracket. *)
Definition opens_value (c : ascii) : bool :=
  negb (is_ws c) && negb (code_unit c =? 93)%N && negb (code_unit c =? 125)%N.

(** [v] is written and read back, whatever follows it. *)
Definition reads_back (v : jsval) : Prop :=
  json_value v = true ->
  exists s,
    serialize v = Some s
    /\ forall fuel rest,
         (2 * String.length s < fuel)%nat -> delimited rest = true ->
         parse_value fuel (s ++ rest) = Some (v, rest).

(** The request a call transmitted was answered by [result]. *)
Definition answered {P : Platform} (tr : list event) (result : Response.t)
  : Prop :=
  exists url options,
    In (Sent url options) tr /\ fetch url options = Fulfilled result.

(** ** A stand-in platform, to run the client on concrete calls *)
Module Sample.

(** A flat query string, [k=v] pairs joined by an ampersand. *)
Definition query_string (params : jsval) : string :=
  join "&" (map (fun kv => fst kv ++ "=" ++ to_string (snd kv))
                (own_entries params)).

Definition reason_phrase (code : Z) : promise string :=
  if code =? 200 then Fulfilled "OK"
  else if code =? 404 then Fulfilled "Not Found"
  else Rejected (Error "Status code does not exist").

(** Every request is answered by [r]. *)
Definition platform (r : Response.t) : Platform := {|
  fetch := fun _ _ => Fulfilled r;
  Qs_stringify := query_string;
  getStatusText := reason_phrase
|}.

Definition api : RestClient.t := {|
  RestClient.baseUrl := "https://api.test";
  RestClient.headers := RestClient.initial_headers;
  RestClient.simulatedDelay := 0
|}.

(** The headers of a stand-in response, a plain object. *)
Definition json_headers : props := [("content-type", JStr "application/json")].

Definition q : string := String dquote EmptyString.

(** The payload [{"error":"not found"}]. *)
Definition not_found_payload : string :=
  "{" ++ q ++ "error" ++ q ++ ":" ++ q ++ "not found" ++ q ++ "}".

Definition not_found : Response.t :=
  Response.of_payload 404 "Not Found" json_headers not_found_payload.

(** The same answer as [fetch] gives it: the Content-Type the server sent
    is inside the [Headers] object, and no key shows it. *)
Definition not_found_fetched : Response.t :=
  Response.of_payload 404 "Not Found" [] not_found_payload.

(** A 404 whose payload is announced as JSON and is not. *)
Definition not_found_html : Response.t :=
  Response.of_payload 404 "Not Found" json_headers "<h1>Not Found</h1>".

Definition ok_empty_object : Response.t :=
  Response.of_payload 200 "OK" json_headers "{}".

(** A body with an [undefined] array element: [{a: [undefined]}]. *)
Definition holey_body : jsval := JObj [("a", JArr [JUndefined])].


(** Options that carry their own [headers] among the raw fetch
    options. *)
Definition passthrough_headers : jsval :=
  JObj [("headers", JObj [("X-Trace", JStr "1")]);
        ("fetchOptions", JObj [("headers", JObj [("X-Raw", JStr "2")])])].

Definition token_options : jsval :=
  JObj [("headers", JObj [("X-Token", JStr "t")])].

End Sample.

(** The three phases of [_fetch], named for the statements below. *)

(** The headers [_fetch] merges: the defaults of the instance, then the
    explicit headers of the call, then the resolved ones. *)
Definition merged_headers (this : RestClient.t) (explicit resolved : jsval)
  : props :=
  obj_assign
    (obj_assign (obj_assign [] (JObj (RestClient.headers this))) explicit)
    resolved.

(** The option bag [_fetch] gives to [fetch]. *)
Definition request_options (method : string) (headers : props) (body : jsval)
  (passthrough : jsval) : fetchOptions :=
  fold_left (fun o kv => obj_set (fst kv) (Plain (snd kv)) o)
            (own_entries passthrough)
            [("method", Plain (JStr method));
             ("headers", Plain (JObj headers));
             ("body", Promise (RestClient.parseBody body headers))].

(** The decoding [_fetch] asks for, given the options of the call. *)
Definition decoding (options : jsval) (result : Response.t) : promise decoded :=
  forceType <- prop_or options "forceType" JNull ;;
  resolveStreams <- prop_or options "resolveStreams" (JBool false) ;;
  RestClient.resolveResponse result forceType resolveStreams.

(** What [_fetch] does once the transport has answered. *)
Definition completion {P : Platform} {K : Hooks} (this : RestClient.t)
  (options : jsval) (result : Response.t) : io decoded :=
  response <-- lift (decoding options result) ;;
  if negb (Response.ok result) then
    e <-- lift (new_HTTPError (Response.status result)
                  (Some (Response.statusText result)) (Some response)) ;;
    throw (IsHTTPError e)
  else
    _ <-- (if truthy (JNum (RestClient.simulatedDelay this))
           then RestClient._simulateDelay this
           else lift (Fulfilled tt)) ;;
    lift (transform response).

(** ** Notions for the properties beyond the claims *)

(** The first entry of the mapping that [getHeader] can see under
    [name]: its key begins with a letter or a digit and is the name up to
    case. *)
Definition first_match (headers : props) (name : string)
  : option (string * jsval) :=
  find (fun kv => alnum_leading (fst kv)
                  && (toLowerCase (fst kv) =? toLowerCase name)%string)
       headers.

(** A test on keys, as a test on entries. *)
Definition on_key {A} (fk : string -> bool) (kv : string * A) : bool :=
  fk (fst kv).

(** No two keys of the mapping are equal up to case. *)
Definition case_unambiguous (headers : props) : Prop :=
  NoDup (map toLowerCase (obj_keys headers)).

(** The instance with another delay, and with other headers. *)
Definition with_delay (this : RestClient.t) (ms : Z) : RestClient.t :=
  {| RestClient.baseUrl := RestClient.baseUrl this;
     RestClient.headers := RestClient.headers this;
     RestClient.simulatedDelay := ms |}.

(** The requests of a trace, in order. *)
Fixpoint requests (tr : list event) : list (string * fetchOptions) :=
  match tr with
  | [] => []
  | Sent url options :: r => (url, options) :: requests r
  | Slept _ :: r => requests r
  end.

(** What [JSON.parse] reads back from what [JSON.stringify] wrote: an
    [undefined] array element has become null, a property whose value is
    [undefined] is gone. *)
Fixpoint normalize (v : jsval) : jsval :=
  match v with
  | JArr l =>
      JArr (map (fun x => match x with
                          | JUndefined => JNull
                          | _ => normalize x
                          end) l)
  | JObj p =>
      JObj (flat_map (fun kv => let '(k, x) := kv in
                                match x with
                                | JUndefined => []
                                | _ => [(k, normalize x)]
                                end) p)
  | _ => v
  end.

(** The values of the embedding that stand for JavaScript values: numbers
    are safe integers and the keys of every object are in property
    order.  [undefined] may occur anywhere. *)
Fixpoint well_formed (v : jsval) : bool :=
  match v with
  | JNum n => (Z.abs n <=? 9007199254740991)
  | JArr l => forallb well_formed l
  | JObj p =>
      property_order (map fst p)
      && forallb (fun kv => let '(_, x) := kv in well_formed x) p
  | _ => true
  end.

(** The response with other headers. *)
Definition with_response_headers (result : Response.t) (headers : props)
  : Response.t :=
  {| Response.status := Response.status result;
     Response.statusText := Response.statusText result;
     Response.headers := headers;
     Response.text := Response.text result;
     Response.json := Response.json result;
     Response.arrayBuffer := Response.arrayBuffer result;
     Response.body := Response.body result |}.

(** A platform whose transport fails, and a response whose status has no
    reason phrase. *)
Definition offline : Platform := {|
  fetch := fun _ _ => Rejected (Failure (JStr "offline"));
  Qs_stringify := Sample.query_string;
  getStatusText := Sample.reason_phrase
|}.

Definition unknown_status : Response.t :=
  Response.of_payload 799 EmptyString Sample.json_headers "{}".

(** An instance that sleeps. *)
Definition slow_api : RestClient.t := with_delay Sample.api 250.

(** * Proofs *)

(** ** Strings *)

Lemma append_assoc (a b c : string) : (a ++ b) ++ c = a ++ (b ++ c).
Proof. induction a as [| x a IH]; simpl; [reflexivity | now rewrite IH]. Qed.

Lemma append_empty (s : string) : s ++ EmptyString = s.
Proof. induction s as [| c s IH]; simpl; [reflexivity | now rewrite IH]. Qed.

Lemma length_append (a b : string) :
  String.length (a ++ b) = (String.length a + String.length b)%nat.
Proof. induction a as [| x a IH]; simpl; [reflexivity | now rewrite IH]. Qed.


(** ** Header lookup *)

Lemma alnum_leading_truthy (k : string) :
  alnum_leading k = true -> truthy (JStr k) = true.
Proof. destruct k; [discriminate | reflexivity]. Qed.

Lemma find_filter_some (f : string -> bool) (ks : list string) (k : string) :
  find f (filter alnum_leading ks) = Some k ->
  In k ks /\ alnum_leading k = true /\ f k = true.
Proof.
  intros E. apply find_some in E. destruct E as [Hin Hf].
  apply filter_In in Hin. tauto.
Qed.

Lemma obj_get_cons_other (k k' : string) (v : jsval) (r : props) :
  k <> k' -> obj_get ((k, v) :: r) k' = obj_get r k'.
Proof.
  intros Hne. unfold obj_get. simpl.
  destruct (String.eqb_spec k k'); [contradiction | reflexivity].
Qed.

Lemma getHeader_cons_hit (k : string) (v : jsval) (r : props) (name : string) :
  alnum_leading k = true -> toLowerCase k = toLowerCase name ->
  getHeader ((k, v) :: r) name = v.
Proof.
  intros Ha Hl. unfold getHeader, obj_keys. cbn [map fst filter].
  rewrite Ha. cbn [find]. rewrite Hl, String.eqb_refl.
  rewrite (alnum_leading_truthy k Ha).
  unfold obj_get. cbn [obj_lookup]. now rewrite String.eqb_refl.
Qed.

Lemma getHeader_cons_miss (k : string) (v : jsval) (r : props) (name : string) :
  alnum_leading k && (toLowerCase k =? toLowerCase name)%string = false ->
  getHeader ((k, v) :: r) name = getHeader r name.
Proof.
  intros Hm. unfold getHeader, obj_keys. cbn [map fst filter].
  assert (Hfind :
    find (fun x => (toLowerCase x =? toLowerCase name)%string)
         (if alnum_leading k then k :: filter alnum_leading (obj_keys r)
          else filter alnum_leading (obj_keys r))
    = find (fun x => (toLowerCase x =? toLowerCase name)%string)
           (filter alnum_leading (obj_keys r))).
  { destruct (alnum_leading k); cbn [find andb] in *;
      [now rewrite Hm | reflexivity]. }
  unfold obj_keys in Hfind. rewrite Hfind. clear Hfind.
  destruct (find _ (filter alnum_leading (map fst r))) as [k' |] eqn:E;
    [| reflexivity].
  apply find_filter_some in E. destruct E as (_ & Ha & Hl).
  rewrite obj_get_cons_other; [reflexivity |].
  intros ->. now rewrite Ha, Hl in Hm.
Qed.

Lemma getHeader_absent (headers : props) (name : string) :
  header_absent headers name -> getHeader headers name = JNull.
Proof.
  unfold header_absent.
  induction headers as [| [k v] r IH]; intros Habs; [reflexivity |].
  rewrite getHeader_cons_miss.
  - apply IH. intros k' Hin. apply Habs. now right.
  - apply andb_false_iff. right. apply String.eqb_neq. apply Habs. now left.
Qed.

(** C8.  [getHeader] gives the value of the first entry, in the order of
    the mapping, whose key begins with a letter or a digit and is the name
    up to case, and null when no such entry exists. *)
Theorem getHeader_first_match (headers : props) (name : string) :
  getHeader headers name = lookup_spec headers name.
Proof.
  induction headers as [| [k v] r IH].
  - reflexivity.
  - unfold lookup_spec. cbn [find fst].
    destruct (alnum_leading k && (toLowerCase k =? toLowerCase name)%string)
      eqn:Hm.
    + apply andb_true_iff in Hm. destruct Hm as [Ha Hl].
      apply String.eqb_eq in Hl. now apply getHeader_cons_hit.
    + rewrite getHeader_cons_miss by exact Hm. exact IH.
Qed.


(** ** Property lists *)
Section Objects.
Context {A : Type}.
Implicit Types (o : list (string * A)) (k : string) (v : A).

Lemma obj_lookup_app o o' k :
  obj_lookup (o ++ o') k = match obj_lookup o k with
                           | Some v => Some v
                           | None => obj_lookup o' k
                           end.
Proof.
  induction o as [| [k0 v0] r IH]; simpl; [reflexivity |].
  destruct (k0 =? k)%string; [reflexivity | exact IH].
Qed.

Lemma obj_lookup_update o k v k' :
  obj_has o k = true ->
  obj_lookup (obj_update k v o) k'
  = if (k =? k')%string then Some v else obj_lookup o k'.
Proof.
  unfold obj_has.
  induction o as [| [k0 v0] r IH]; simpl; [discriminate |].
  destruct (String.eqb_spec k0 k) as [-> | Hne]; intros Hhas; simpl.
  - destruct (k =? k')%string; reflexivity.
  - destruct (String.eqb_spec k0 k') as [<- | Hne'].
    + destruct (String.eqb_spec k k0); [congruence | reflexivity].
    + apply IH, Hhas.
Qed.

Lemma obj_lookup_insert_index o i k v k' :
  obj_lookup o k = None ->
  obj_lookup (obj_insert_index i k v o) k'
  = if (k =? k')%string then Some v else obj_lookup o k'.
Proof.
  induction o as [| [k0 v0] r IH]; simpl; [reflexivity |].
  destruct (String.eqb_spec k0 k) as [-> | Hne]; [discriminate |].
  intros Hnone.
  destruct (array_index k0) as [j |]; [destruct (i <? j)%N |];
    simpl; try reflexivity.
  destruct (String.eqb_spec k0 k') as [<- | Hne'].
  - destruct (String.eqb_spec k k0); [congruence | reflexivity].
  - apply IH, Hnone.
Qed.

Lemma obj_lookup_set o k v k' :
  obj_lookup (obj_set k v o) k'
  = if (k =? k')%string then Some v else obj_lookup o k'.
Proof.
  unfold obj_set. destruct (obj_has o k) eqn:Hhas.
  - now apply obj_lookup_update.
  - assert (Hnone : obj_lookup o k = None).
    { unfold obj_has in Hhas. destruct (obj_lookup o k); congruence. }
    destruct (array_index k) as [i |].
    + now apply obj_lookup_insert_index.
    + rewrite obj_lookup_app. simpl.
      destruct (String.eqb_spec k k') as [<- | Hne].
      * now rewrite Hnone.
      * destruct (obj_lookup o k'); reflexivity.
Qed.

Lemma obj_last_cons k0 v0 o k :
  obj_last ((k0, v0) :: o) k
  = match obj_last o k with
    | Some v => Some v
    | None => if (k0 =? k)%string then Some v0 else None
    end.
Proof. unfold obj_last. simpl. now rewrite obj_lookup_app. Qed.

Lemma obj_has_last o k : obj_has o k = false -> obj_last o k = None.
Proof.
  unfold obj_has. induction o as [| [k0 v0] r IH]; [reflexivity |].
  simpl. rewrite obj_last_cons.
  destruct (k0 =? k)%string; [discriminate |].
  intros H. now rewrite IH.
Qed.
End Objects.

(** Copying the entries [es] one by one, each value through [g]: the
    last entry under a key decides. *)
Lemma obj_lookup_fold_set {A B} (g : B -> A) (es : list (string * B))
  (t : list (string * A)) (k : string) :
  obj_lookup (fold_left (fun o kv => obj_set (fst kv) (g (snd kv)) o) es t) k
  = match obj_last es k with
    | Some v => Some (g v)
    | None => obj_lookup t k
    end.
Proof.
  revert t. induction es as [| [k0 v0] r IH]; intros t; [reflexivity |].
  simpl. rewrite IH, obj_last_cons, obj_lookup_set. simpl.
  destruct (obj_last r k); [reflexivity |].
  destruct (k0 =? k)%string; reflexivity.
Qed.

Lemma obj_lookup_assign (t : props) (src : jsval) (k : string) :
  obj_lookup (obj_assign t src) k
  = match obj_last (own_entries src) k with
    | Some v => Some v
    | None => obj_lookup t k
    end.
Proof. apply (obj_lookup_fold_set (fun x => x)). Qed.


(** ** The dispatcher *)

Lemma io_bind_lift {A B} (m : promise A) (k : A -> io B) :
  io_bind (lift m) k = match m with
                       | Fulfilled a => k a
                       | Rejected e => (Rejected e, [])
                       end.
Proof.
  unfold io_bind, lift. destruct m as [a | e]; [| reflexivity].
  destruct (k a) as [r tr]. reflexivity.
Qed.

Lemma io_bind_assoc {A B C} (m : io A) (k : A -> io B) (h : B -> io C) :
  io_bind (io_bind m k) h = io_bind m (fun a => io_bind (k a) h).
Proof.
  destruct m as [[a | e] tr]; simpl; [| reflexivity].
  destruct (k a) as [[b | e] tr1]; simpl; [| reflexivity].
  destruct (h b) as [r tr2]. now rewrite app_assoc.
Qed.

Lemma io_bind_ext {A B} (m : io A) (k k' : A -> io B) :
  (forall a, k a = k' a) -> io_bind m k = io_bind m k'.
Proof.
  intros Hk. destruct m as [[a | e] tr]; simpl; [| reflexivity].
  now rewrite Hk.
Qed.

Section Dispatcher.
Context {P : Platform} {K : Hooks}.

(** [_fetch], phase by phase. *)
Lemma _fetch_phases (this : RestClient.t) (route method : string)
  (params body options : jsval) :
  RestClient._fetch this route method params body options =
  let params := default params (JObj []) in
  let body := default body JNull in
  let options := default options (JObj []) in
  if negb (truthy (JStr route)) then throw (Error "Route is not defined")
  else
    explicit <-- lift (prop_or options "headers" (JObj [])) ;;
    resolved <-- lift (resolveHeaders route method params body options) ;;
    passthrough <-- lift (prop_or options "fetchOptions" (JObj [])) ;;
    let url := RestClient.fullRoute this route params in
    let sent := request_options method
                  (merged_headers this explicit resolved) body passthrough in
    result <-- (fetch url sent, [Sent url sent]) ;;
    completion this options result.
Proof.
  unfold RestClient._fetch, completion, decoding, request_options,
    merged_headers.
  cbv zeta.
  destruct (negb (truthy (JStr route))); [reflexivity |].
  rewrite !io_bind_lift.
  destruct (prop_or _ "headers" _) as [explicit | e]; [| reflexivity].
  rewrite !io_bind_lift.
  destruct (resolveHeaders _ _ _ _ _) as [resolved | e]; [| reflexivity].
  rewrite !io_bind_lift.
  destruct (prop_or _ "fetchOptions" _) as [passthrough | e]; [| reflexivity].
  apply io_bind_ext. intros result.
  rewrite !io_bind_lift. unfold bind.
  destruct (prop_or _ "forceType" _) as [forceType | e]; [| reflexivity].
  rewrite !io_bind_lift.
  destruct (prop_or _ "resolveStreams" _) as [resolveStreams | e];
    [| reflexivity].
  rewrite !io_bind_lift. reflexivity.
Qed.

(** After the answer, the call only ever sleeps. *)
Lemma completion_trace (this : RestClient.t) (options : jsval)
  (result : Response.t) :
  forall ev, In ev (snd (completion this options result)) ->
             ev = Slept (RestClient.simulatedDelay this).
Proof.
  unfold completion. rewrite io_bind_lift.
  destruct (decoding options result) as [response | e]; [| intros ev []].
  destruct (negb (Response.ok result)).
  - rewrite io_bind_lift.
    destruct (new_HTTPError _ _ _); intros ev [].
  - destruct (truthy (JNum (RestClient.simulatedDelay this))).
    + unfold RestClient._simulateDelay, io_bind, lift.
      destruct (transform response); simpl; intros ev [<- | []];
        reflexivity.
    + rewrite io_bind_lift. unfold lift. intros ev [].
Qed.

(** A request goes out exactly when the route is not empty, the options
    can be read and the hook fulfils. *)
Lemma _fetch_sent (this : RestClient.t) (route method : string)
  (params body options : jsval) (outcome : promise decoded)
  (tr : list event) (url : string) (sent : fetchOptions) :
  RestClient._fetch this route method params body options = (outcome, tr) ->
  In (Sent url sent) tr ->
  exists explicit resolved passthrough tr',
    prop_or (default options (JObj [])) "headers" (JObj [])
      = Fulfilled explicit
    /\ resolveHeaders route method (default params (JObj []))
         (default body JNull) (default options (JObj []))
       = Fulfilled resolved
    /\ prop_or (default options (JObj [])) "fetchOptions" (JObj [])
       = Fulfilled passthrough
    /\ url = RestClient.fullRoute this route (default params (JObj []))
    /\ sent = request_options method
                (merged_headers this explicit resolved)
                (default body JNull) passthrough
    /\ tr = Sent url sent :: tr'
    /\ match fetch url sent with
       | Fulfilled result =>
           completion this (default options (JObj [])) result
           = (outcome, tr')
       | Rejected e => outcome = Rejected e /\ tr' = []
       end.
Proof.
  rewrite _fetch_phases. cbv zeta.
  destruct (negb (truthy (JStr route))).
  { intros [= <- <-] []. }
  rewrite io_bind_lift.
  destruct (prop_or _ "headers" _) as [explicit | e];
    [| intros [= <- <-] []].
  rewrite io_bind_lift.
  destruct (resolveHeaders _ _ _ _ _) as [resolved | e];
    [| intros [= <- <-] []].
  rewrite io_bind_lift.
  destruct (prop_or _ "fetchOptions" _) as [passthrough | e];
    [| intros [= <- <-] []].
  intros Hrun Hin.
  exists explicit, resolved, passthrough.
  unfold io_bind in Hrun.
  destruct (fetch _ _) as [result | e] eqn:Hfetch.
  - destruct (completion this _ result) as [r tr'] eqn:Hc.
    injection Hrun as <- <-. exists tr'.
    destruct Hin as [Hsent | Hin].
    + injection Hsent as <- <-. rewrite Hfetch. repeat split; exact Hc.
    + pose proof (completion_trace this (default options (JObj [])) result
                    (Sent url sent)) as Hslept.
      rewrite Hc in Hslept. specialize (Hslept Hin). discriminate.
  - injection Hrun as <- <-. exists [].
    destruct Hin as [Hsent | []].
    injection Hsent as <- <-. rewrite Hfetch. repeat split; reflexivity.
Qed.
End Dispatcher.


Lemma strip_trailing_keeps (a : string) (c : ascii) :
  (code_unit c =? 63)%N = false ->
  RestClient.strip_trailing_question_mark (a ++ String c EmptyString)
  = a ++ String c EmptyString.
Proof.
  intros Hc. induction a as [| x a IH].
  - simpl. now rewrite Hc.
  - change (String x a ++ String c EmptyString)
      with (String x (a ++ String c EmptyString)).
    cbn [RestClient.strip_trailing_question_mark].
    destruct (a ++ String c EmptyString) eqn:E.
    + destruct a; discriminate.
    + now rewrite IH.
Qed.

Lemma obj_has_delete {A} (k : string) (o : list (string * A)) :
  obj_has (obj_delete k o) k = false.
Proof.
  unfold obj_has. induction o as [| [k' v] r IH]; simpl; [reflexivity |].
  destruct (String.eqb_spec k' k) as [-> | Hne]; [exact IH |].
  simpl. destruct (String.eqb_spec k' k); [contradiction | exact IH].
Qed.

Lemma truthy_route (route : string) :
  route <> EmptyString -> truthy (JStr route) = true.
Proof. destruct route; [contradiction | reflexivity]. Qed.

(** Without a forced type, the decoding of a response as [fetch] gives it
    faults: no key of its headers is there for [getHeader] to find. *)
Lemma decoding_standard_faults (options : jsval) (result : Response.t)
  (forceType : jsval) :
  prop_or options "forceType" JNull = Fulfilled forceType ->
  truthy forceType = false ->
  Response.standard result = true ->
  decoding options result = Rejected TypeError.
Proof.
  intros Hread Hfalsy Hstd. unfold decoding. rewrite Hread. cbn [bind].
  destruct (prop_or options "resolveStreams" (JBool false))
    as [resolveStreams | e] eqn:Hrs.
  - cbn [bind]. unfold RestClient.resolveResponse, Response.standard in *.
    destruct (Response.headers result); [| discriminate].
    destruct forceType; cbn in Hfalsy |- *; try reflexivity;
      try discriminate; now rewrite Hfalsy.
  - destruct options; cbn in Hread, Hrs; try discriminate;
      destruct (_ =? _)%string; discriminate.
Qed.

Section DispatcherClaims.
Context {P : Platform} {K : Hooks}.

(** C1, on the code.  When [_fetch] has transmitted a request without a
    forced type and the transport has answered it with a response as
    [fetch] gives it, the call is rejected with a TypeError, whatever the
    status: [resolveResponse], awaited before the status is tested, looks
    for the Content-Type among the keys of a [Headers] object, finds none
    and calls [toLowerCase] on null.  No [HTTPError] is made. *)
Theorem fetch_failure_status_faults_before_HTTPError
  (this : RestClient.t) (route method : string)
  (params body options : jsval) (outcome : promise decoded)
  (tr : list event) (result : Response.t) (forceType : jsval) :
  RestClient._fetch this route method params body options = (outcome, tr) ->
  answered tr result ->
  Response.standard result = true ->
  prop_or (default options (JObj [])) "forceType" JNull
  = Fulfilled forceType ->
  truthy forceType = false ->
  outcome = Rejected TypeError
  /\ forall e, outcome <> Rejected (IsHTTPError e).
Proof.
  intros Hrun (url & sent & Hin & Hanswer) Hstd Hread Hfalsy.
  destruct (_fetch_sent _ _ _ _ _ _ _ _ _ _ Hrun Hin)
    as (explicit & resolved & passthrough & tr' & _ & _ & _ & _ & _ & _ & Hc).
  rewrite Hanswer in Hc. unfold completion in Hc.
  rewrite (decoding_standard_faults _ _ _ Hread Hfalsy Hstd), io_bind_lift
    in Hc.
  injection Hc as <- _. split; [reflexivity | discriminate].
Qed.

(** X14.  When [_fetch] has transmitted a request and the transport has
    answered it with a response whose status is not in the success range,
    whose body the requested decoding resolves to [data] and whose status
    has a reason phrase, the call is rejected with an [HTTPError]: its
    [code] is the status of the response, its [statusText] is the reason
    phrase of that code, and its [response] is [data], the body decoded
    before the error was made. *)
Theorem fetch_failure_status_raises_HTTPError
  (this : RestClient.t) (route method : string)
  (params body options : jsval) (outcome : promise decoded)
  (tr : list event) (result : Response.t) (data : decoded)
  (phrase : string) :
  RestClient._fetch this route method params body options = (outcome, tr) ->
  answered tr result ->
  Response.ok result = false ->
  decoding (default options (JObj [])) result = Fulfilled data ->
  getStatusText (Response.status result) = Fulfilled phrase ->
  exists e,
    outcome = Rejected (IsHTTPError e)
    /\ code e = Response.status result
    /\ statusText e = Fulfilled phrase
    /\ response e = data.
Proof.
  intros Hrun (url & sent & Hin & Hanswer) Hok Hdata Hphrase.
  destruct (_fetch_sent _ _ _ _ _ _ _ _ _ _ Hrun Hin)
    as (explicit & resolved & passthrough & tr' & _ & _ & _ & _ & _ & _ & Hc).
  rewrite Hanswer in Hc. unfold completion in Hc.
  rewrite Hdata, io_bind_lift, Hok in Hc. cbn [negb] in Hc.
  unfold new_HTTPError in Hc. rewrite Hphrase in Hc. cbn in Hc.
  injection Hc as <- _.
  eexists. split; [reflexivity |].
  unfold statusText. cbn. auto.
Qed.

(** C9.  [post(route, body, options)] with [options.query] equal to
    [{x: 1}] is the pipeline run with that mapping as the query parameters
    and with the options without their [query] key; on a route that is not
    empty, when the header hook fulfils, the request goes to the base URL
    followed by the route and by [?x=1], the text [qs] gives for
    [{x: 1}]. *)
Theorem post_moves_query_into_url
  (this : RestClient.t) (route : string) (body : jsval) (o : props)
  (resolved : jsval) :
  route <> EmptyString ->
  obj_get o "query" = JObj [("x", JNum 1)] ->
  Qs_stringify (JObj [("x", JNum 1)]) = "x=1" ->
  resolveHeaders route "POST" (JObj [("x", JNum 1)]) (default body JNull)
    (JObj (obj_delete "query" o)) = Fulfilled resolved ->
  RestClient.post this route body (JObj o)
  = RestClient._fetch this route "POST" (JObj [("x", JNum 1)]) body
      (JObj (obj_delete "query" o))
  /\ obj_has (obj_delete "query" o) "query" = false
  /\ exists sent tr',
       snd (RestClient.post this route body (JObj o))
       = Sent (RestClient.baseUrl this ++ route ++ "?x=1") sent :: tr'.
Proof.
  intros Hroute Hquery Hqs Hhook.
  assert (Hpost : RestClient.post this route body (JObj o)
                  = RestClient._fetch this route "POST"
                      (JObj [("x", JNum 1)]) body
                      (JObj (obj_delete "query" o))).
  { unfold RestClient.post, prop_or. cbn [default get_prop bind].
    rewrite Hquery, io_bind_lift. reflexivity. }
  split; [exact Hpost |]. split; [apply obj_has_delete |].
  rewrite Hpost, _fetch_phases. cbv zeta.
  rewrite (truthy_route route Hroute). cbn [negb default].
  unfold prop_or at 1. cbn [get_prop bind]. rewrite io_bind_lift.
  rewrite Hhook, io_bind_lift.
  unfold prop_or at 1. cbn [get_prop bind]. rewrite io_bind_lift.
  assert (Hurl : RestClient.fullRoute this route (JObj [("x", JNum 1)])
                 = RestClient.baseUrl this ++ route ++ "?x=1").
  { unfold RestClient.fullRoute. cbn [default]. rewrite Hqs.
    change ("?" ++ "x=1") with "?x=1".
    assert (Hsplit : RestClient.baseUrl this ++ route ++ "?x=1"
                     = (RestClient.baseUrl this ++ route ++ "?x=") ++ "1")
      by now rewrite !append_assoc.
    rewrite Hsplit. now apply strip_trailing_keeps. }
  rewrite Hurl. unfold io_bind.
  destruct (fetch _ _) as [result | e].
  - destruct (completion _ _ _) as [r tr']. simpl. eauto.
  - simpl. eauto.
Qed.
End DispatcherClaims.


Lemma request_options_headers (method : string) (headers : props)
  (body passthrough : jsval) :
  obj_has (own_entries passthrough) "headers" = false ->
  obj_lookup (request_options method headers body passthrough) "headers"
  = Some (Plain (JObj headers)).
Proof.
  intros Hnone. unfold request_options.
  rewrite (obj_lookup_fold_set Plain), (obj_has_last _ _ Hnone).
  reflexivity.
Qed.

Lemma merged_headers_lookup (this : RestClient.t) (explicit resolved : jsval)
  (k : string) :
  obj_lookup (merged_headers this explicit resolved) k
  = match obj_last (own_entries resolved) k with
    | Some v => Some v
    | None =>
        match obj_last (own_entries explicit) k with
        | Some v => Some v
        | None => obj_last (RestClient.headers this) k
        end
    end.
Proof.
  unfold merged_headers. rewrite !obj_lookup_assign. simpl.
  destruct (obj_last (RestClient.headers this) k); reflexivity.
Qed.

Section MergeClaims.
Context {P : Platform} {K : Hooks}.

(** C7, as amended.  For every call that transmits a request and whose
    raw [fetchOptions] carry no [headers] entry, the headers sent are the
    merge of the headers of the instance, the explicit headers of the call
    and the headers the hook resolved: under every key the value comes
    from the last of these three sources that has the key. *)
Theorem sent_headers_later_source_wins
  (this : RestClient.t) (route method : string)
  (params body options : jsval) (outcome : promise decoded)
  (tr : list event) (url : string) (sent : fetchOptions) :
  RestClient._fetch this route method params body options = (outcome, tr) ->
  In (Sent url sent) tr ->
  (forall passthrough,
      prop_or (default options (JObj [])) "fetchOptions" (JObj [])
      = Fulfilled passthrough ->
      obj_has (own_entries passthrough) "headers" = false) ->
  exists explicit resolved merged,
    prop_or (default options (JObj [])) "headers" (JObj [])
    = Fulfilled explicit
    /\ resolveHeaders route method (default params (JObj []))
         (default body JNull) (default options (JObj []))
       = Fulfilled resolved
    /\ obj_lookup sent "headers" = Some (Plain (JObj merged))
    /\ forall k,
         obj_lookup merged k
         = match obj_last (own_entries resolved) k with
           | Some v => Some v
           | None =>
               match obj_last (own_entries explicit) k with
               | Some v => Some v
               | None => obj_last (RestClient.headers this) k
               end
           end.
Proof.
  intros Hrun Hin Hraw.
  destruct (_fetch_sent _ _ _ _ _ _ _ _ _ _ Hrun Hin)
    as (explicit & resolved & passthrough & tr'
        & He & Hr & Hp & _ & -> & _ & _).
  exists explicit, resolved, (merged_headers this explicit resolved).
  repeat split; try assumption.
  - apply request_options_headers, Hraw, Hp.
  - apply merged_headers_lookup.
Qed.
End MergeClaims.

(** An instance made without options starts from the two default
    headers. *)
Lemma new_default_headers (baseUrl : string) (this : RestClient.t) :
  RestClient.new baseUrl JUndefined = Fulfilled this ->
  RestClient.headers this = RestClient.initial_headers.
Proof.
  unfold RestClient.new. destruct (negb (truthy (JStr baseUrl)));
    [discriminate |].
  cbn. intros [= <-]. reflexivity.
Qed.

(** ** The request-body codec *)

(** C6.  On a falsy body, whatever the headers, [parseBody] fulfils with
    the body itself, unchanged and unencoded. *)
Theorem parseBody_falsy_identity (body : jsval) (headers : props) :
  truthy body = false ->
  RestClient.parseBody body headers = Fulfilled (Raw body).
Proof. intros Hf. unfold RestClient.parseBody. now rewrite Hf. Qed.

(** C4.  On a truthy body and headers without a Content-Type key in any
    casing, the header lookup gives null and [parseBody] is rejected with
    the TypeError of calling [startsWith] on null; the body is not passed
    through. *)
Theorem parseBody_faults_without_content_type (body : jsval) (headers : props) :
  truthy body = true ->
  header_absent headers "content-type" ->
  getHeader headers "content-type" = JNull
  /\ RestClient.parseBody body headers = Rejected TypeError.
Proof.
  intros Ht Habs. pose proof (getHeader_absent _ _ Habs) as Hnull.
  split; [exact Hnull |].
  unfold RestClient.parseBody. rewrite Ht, Hnull. reflexivity.
Qed.

(** C10.  On a response without a Content-Type key in any casing, and
    with no [forceType] (any falsy value), the header lookup gives null and
    [resolveResponse] is rejected with the TypeError of calling
    [toLowerCase] on null, before any branch on the content type. *)
Theorem resolveResponse_faults_without_content_type
  (result : Response.t) (forceType resolveStreams : jsval) :
  truthy forceType = false ->
  header_absent (Response.headers result) "content-type" ->
  getHeader (Response.headers result) "content-type" = JNull
  /\ RestClient.resolveResponse result forceType resolveStreams
     = Rejected TypeError.
Proof.
  intros Hf Habs. pose proof (getHeader_absent _ _ Habs) as Hnull.
  split; [exact Hnull |].
  unfold RestClient.resolveResponse.
  assert (Hd : truthy (default forceType JNull) = false)
    by (destruct forceType; simpl in *; congruence).
  rewrite Hd, Hnull. reflexivity.
Qed.

(** C3, on the code: [simpleFetch] is rejected with a configuration
    error on every input, an empty URL or not, and transmits nothing: the
    route it gives to [_fetch] is the empty string. *)
Theorem simpleFetch_never_sends (P : Platform) (url : string)
  (method : option string) (params body options : jsval) :
  exists msg,
    simpleFetch url method params body options = (Rejected (Error msg), []).
Proof.
  unfold simpleFetch. rewrite io_bind_lift.
  destruct (RestClient.new url JUndefined) as [api | e] eqn:Hnew.
  - exists "Route is not defined". reflexivity.
  - exists "missing baseUrl". unfold RestClient.new in Hnew.
    destruct (negb (truthy (JStr url))); [| discriminate].
    now injection Hnew as <-.
Qed.


(** * JSON text *)

Lemma join_cons (sep a : string) (l : list string) :
  l <> [] -> join sep (a :: l) = a ++ sep ++ join sep l.
Proof. destruct l; [contradiction | reflexivity]. Qed.

(** ** Strings *)

Lemma parse_chars_escape_char (c : ascii) (r : string) :
  parse_chars (escape_char c ++ r) = cons_char c (parse_chars r).
Proof. destruct c as [[] [] [] [] [] [] [] []]; reflexivity. Qed.

Lemma parse_chars_escape (s rest : string) :
  parse_chars (escape s ++ String dquote rest) = Some (s, rest).
Proof.
  induction s as [| c s IH]; [reflexivity |].
  cbn [escape]. rewrite append_assoc, parse_chars_escape_char, IH.
  reflexivity.
Qed.

Lemma parse_chars_quote (s rest : string) :
  exists t, quote s ++ rest = String dquote t
            /\ parse_chars t = Some (s, rest).
Proof.
  exists (escape s ++ String dquote rest). split.
  - unfold quote. cbn [append]. now rewrite append_assoc.
  - apply parse_chars_escape.
Qed.

(** ** Numbers *)

(** The numeral of a number is not empty and has no leading zero. *)
Lemma to_uint_canonical (n : N) :
  N.to_uint n <> Decimal.Nil
  /\ forall d, N.to_uint n = Decimal.D0 d -> d = Decimal.Nil.
Proof.
  split.
  - destruct n; [discriminate | apply DecimalPos.Unsigned.to_uint_nonnil].
  - intros d Hd.
    pose proof (DecimalN.Unsigned.to_of (N.to_uint n)) as Hnorm.
    rewrite DecimalN.Unsigned.of_to, Hd, unorm_D0 in Hnorm.
    destruct d; try reflexivity;
      match type of Hnorm with
      | _ = Decimal.unorm ?u =>
          assert (Hle : (Decimal.nb_digits (Decimal.unorm u)
                         <= Decimal.nb_digits u)%nat)
            by (apply nb_digits_unorm; discriminate);
          rewrite <- Hnorm in Hle; simpl in Hle; lia
      end.
Qed.

Lemma delimited_not_digit (rest : string) :
  delimited rest = true ->
  starts_fraction rest = false
  /\ match rest with
     | String c _ => is_digit c = false
     | EmptyString => True
     end.
Proof.
  destruct rest as [| c r]; [now split |].
  unfold delimited, starts_fraction, is_digit, in_range.
  intros H. apply orb_true_iff in H. destruct H as [H | H].
  - apply orb_true_iff in H.
    destruct H as [H | H]; apply N.eqb_eq in H; rewrite H; now split.
  - apply N.eqb_eq in H; rewrite H; now split.
Qed.

Lemma span_digits_numeral (d : Decimal.uint) (rest : string) :
  match rest with
  | String c _ => is_digit c = false
  | EmptyString => True
  end ->
  span_digits (NilEmpty.string_of_uint d ++ rest)
  = (NilEmpty.string_of_uint d, rest).
Proof.
  intros Hrest.
  induction d; cbn [NilEmpty.string_of_uint append span_digits];
    try (rewrite IHd; reflexivity).
  destruct rest as [| c r]; [reflexivity |].
  cbn [span_digits]. now rewrite Hrest.
Qed.

Lemma parse_nat_numeral (n : N) (rest : string) :
  (n <= MAX_SAFE_INTEGER)%N ->
  delimited rest = true ->
  parse_nat (N_to_string n ++ rest) = Some (n, rest).
Proof.
  intros Hsafe Hd. apply N.leb_le in Hsafe.
  apply delimited_not_digit in Hd. destruct Hd as [Hfrac Hdig].
  destruct (to_uint_canonical n) as [Hnil Hzero].
  unfold parse_nat, N_to_string.
  assert (Hs : NilZero.string_of_uint (N.to_uint n)
               = NilEmpty.string_of_uint (N.to_uint n))
    by (destruct (N.to_uint n); [contradiction | reflexivity ..]).
  rewrite Hs, (span_digits_numeral _ _ Hdig), <- Hs.
  pose proof (NilZero.usu _ Hnil) as Husu.
  destruct (NilZero.string_of_uint (N.to_uint n)) as [| c t] eqn:Hstr.
  - discriminate.
  - assert (Hlead : (code_unit c =? 48)%N && negb (t =? EmptyString)%string
                    = false).
    { destruct (N.eqb_spec (code_unit c) 48) as [Hc |]; [| reflexivity].
      clear Husu Hstr.
      destruct (N.to_uint n) as [| d | d | d | d | d | d | d | d | d | d];
        try discriminate; cbn [NilEmpty.string_of_uint] in Hs;
        injection Hs as -> ->; try discriminate Hc.
      now rewrite (Hzero d eq_refl). }
    now rewrite Hlead, Hfrac, Husu, DecimalN.Unsigned.of_to, Hsafe.
Qed.

Lemma N_to_string_head (n : N) :
  exists c t, N_to_string n = String c t /\ is_digit c = true.
Proof.
  unfold N_to_string. destruct (to_uint_canonical n) as [Hnil _].
  destruct (N.to_uint n); [contradiction | ..]; cbn; eauto.
Qed.

(** ** The parser, one step at a time *)

Lemma parse_value_S (f : nat) (s : string) :
  parse_value (S f) s
  = match skip_ws s with
    | EmptyString => None
    | String c r =>
        if (code_unit c =? 34)%N then
          match parse_chars r with
          | Some (str, rest) => Some (JStr str, rest)
          | None => None
          end
        else if (code_unit c =? 91)%N then
          match expect 93 r with
          | Some rest => Some (JArr [], rest)
          | None => match parse_elements f r with
                    | Some (l, rest) => Some (JArr l, rest)
                    | None => None
                    end
          end
        else if (code_unit c =? 123)%N then
          match expect 125 r with
          | Some rest => Some (JObj [], rest)
          | None => match parse_members f r with
                    | Some (l, rest) => Some (JObj (build_object l), rest)
                    | None => None
                    end
          end
        else if (code_unit c =? 45)%N then
          match parse_nat r with
          | Some (n, rest) => Some (JNum (- Z.of_N n), rest)
          | None => None
          end
        else if is_digit c then
          match parse_nat (String c r) with
          | Some (n, rest) => Some (JNum (Z.of_N n), rest)
          | None => None
          end
        else
          match strip_prefix "null" (String c r) with
          | Some rest => Some (JNull, rest)
          | None =>
              match strip_prefix "true" (String c r) with
              | Some rest => Some (JBool true, rest)
              | None =>
                  match strip_prefix "false" (String c r) with
                  | Some rest => Some (JBool false, rest)
                  | None => None
                  end
              end
          end
    end.
Proof. reflexivity. Qed.

Lemma parse_elements_S (f : nat) (s : string) :
  parse_elements (S f) s
  = match parse_value f s with
    | Some (v, r) =>
        match expect 44 r with
        | Some r' =>
            match parse_elements f r' with
            | Some (l, rest) => Some (v :: l, rest)
            | None => None
            end
        | None =>
            match expect 93 r with
            | Some rest => Some ([v], rest)
            | None => None
            end
        end
    | None => None
    end.
Proof. reflexivity. Qed.

Lemma parse_members_S (f : nat) (s : string) :
  parse_members (S f) s
  = match expect 34 s with
    | Some r =>
        match parse_chars r with
        | Some (k, r1) =>
            match expect 58 r1 with
            | Some r2 =>
                match parse_value f r2 with
                | Some (v, r3) =>
                    match expect 44 r3 with
                    | Some r4 =>
                        match parse_members f r4 with
                        | Some (l, rest) => Some ((k, v) :: l, rest)
                        | None => None
                        end
                    | None =>
                        match expect 125 r3 with
                        | Some rest => Some ([(k, v)], rest)
                        | None => None
                        end
                    end
                | None => None
                end
            | None => None
            end
        | None => None
        end
    | None => None
    end.
Proof. reflexivity. Qed.

Lemma expect_head (n : N) (c : ascii) (t : string) :
  is_ws c = false ->
  expect n (String c t) = if (code_unit c =? n)%N then Some t else None.
Proof. intros Hws. unfold expect. cbn [skip_ws]. now rewrite Hws. Qed.

(** Rewrites [expect n] on a text whose first code unit is known. *)
Ltac expect_known :=
  rewrite expect_head by reflexivity;
  match goal with
  | |- context [(code_unit ?c =? ?n)%N] =>
      let b := eval vm_compute in (code_unit c =? n)%N in
      change (code_unit c =? n)%N with b
  end;
  cbv iota.

Lemma opens_value_spec (c : ascii) :
  opens_value c = true ->
  is_ws c = false
  /\ (code_unit c =? 93)%N = false /\ (code_unit c =? 125)%N = false.
Proof.
  unfold opens_value. intros H.
  apply andb_true_iff in H. destruct H as [H H3].
  apply andb_true_iff in H. destruct H as [H1 H2].
  now rewrite negb_true_iff in *.
Qed.

Lemma digit_codes (c : ascii) :
  is_digit c = true ->
  opens_value c = true
  /\ (code_unit c =? 34)%N = false /\ (code_unit c =? 91)%N = false
  /\ (code_unit c =? 123)%N = false /\ (code_unit c =? 45)%N = false.
Proof.
  unfold is_digit, in_range, opens_value, is_ws. intros H.
  apply andb_true_iff in H. destruct H as [Hlo Hhi].
  apply N.leb_le in Hlo, Hhi.
  repeat match goal with
         | |- _ /\ _ => split
         | |- _ && _ = true => apply andb_true_iff; split
         | |- negb _ = true => apply negb_true_iff
         | |- _ || _ = false => apply orb_false_iff; split
         | |- (_ =? _)%N = false => apply N.eqb_neq; lia
         end.
Qed.

Lemma serialize_head (v : jsval) (s : string) :
  serialize v = Some s ->
  exists c t, s = String c t /\ opens_value c = true.
Proof.
  destruct v as [| | [] | n | str | l | p]; simpl; intros [= <-];
    try (do 2 eexists; split; reflexivity).
  unfold Z_to_string.
  destruct n as [| q | q];
    try (destruct (N_to_string_head (Z.to_N (Z.pos q))) as (c & t & -> & Hc));
    try (destruct (N_to_string_head (Z.to_N 0)) as (c & t & -> & Hc));
    try (exists c, t; split; [reflexivity | now apply digit_codes]).
  do 2 eexists; split; reflexivity.
Qed.

Lemma skip_ws_opens (c : ascii) (t : string) :
  opens_value c = true -> skip_ws (String c t) = String c t.
Proof.
  intros H. apply opens_value_spec in H. destruct H as [Hws _].
  cbn [skip_ws]. now rewrite Hws.
Qed.

Lemma expect_closing_opens (c : ascii) (t : string) :
  opens_value c = true ->
  expect 93 (String c t) = None /\ expect 125 (String c t) = None.
Proof.
  intros H. apply opens_value_spec in H. destruct H as (Hws & H1 & H2).
  rewrite !expect_head by exact Hws. now rewrite H1, H2.
Qed.

Lemma json_value_serializes (v : jsval) :
  json_value v = true -> exists s, serialize v = Some s.
Proof. destruct v as [| | [] | | | |]; simpl; try discriminate; eauto. Qed.

Lemma element_text_serialize (x : jsval) (s : string) :
  serialize x = Some s -> element_text x = s.
Proof. unfold element_text. now intros ->. Qed.

Lemma member_text_serialize (k : string) (x : jsval) (s : string) :
  serialize x = Some s -> member_text (k, x) = [quote k ++ ":" ++ s].
Proof. unfold member_text. now intros ->. Qed.

(** ** Arrays and objects *)

Lemma parse_elements_join (l : list jsval) :
  Forall reads_back l -> forallb json_value l = true -> l <> [] ->
  forall fuel rest,
    (2 * String.length (join "," (map element_text l)) + 1 < fuel)%nat ->
    parse_elements fuel (join "," (map element_text l) ++ String "]" rest)
    = Some (l, rest).
Proof.
  induction l as [| x l IH]; [contradiction |].
  intros Hall Hjson _ fuel rest Hfuel.
  inversion Hall as [| ? ? Hx Hl]; subst.
  cbn [forallb] in Hjson. apply andb_true_iff in Hjson.
  destruct Hjson as [Hjx Hjl].
  destruct (Hx Hjx) as (sx & Hsx & Hparse).
  cbn [map] in *. rewrite (element_text_serialize x sx Hsx) in *.
  destruct fuel as [| f]; [lia |]. rewrite parse_elements_S.
  destruct l as [| y l'].
  - cbn [map join] in *.
    rewrite Hparse by (lia || reflexivity). now do 2 expect_known.
  - assert (Hne : map element_text (y :: l') <> []) by discriminate.
    rewrite (join_cons _ _ _ Hne) in *.
    rewrite append_assoc. cbn [append].
    rewrite !length_append in Hfuel. cbn [String.length] in Hfuel.
    rewrite Hparse by (lia || reflexivity). expect_known.
    rewrite (IH Hl Hjl) by (discriminate || lia). reflexivity.
Qed.

Lemma parse_members_join (p : props) :
  Forall (fun kv => reads_back (snd kv)) p ->
  forallb (fun kv => let '(_, x) := kv in json_value x) p = true ->
  p <> [] ->
  forall fuel rest,
    (2 * String.length (join "," (flat_map member_text p)) + 1 < fuel)%nat ->
    parse_members fuel (join "," (flat_map member_text p) ++ String "}" rest)
    = Some (p, rest).
Proof.
  induction p as [| [k x] p IH]; [contradiction |].
  intros Hall Hjson _ fuel rest Hfuel.
  inversion Hall as [| ? ? Hx Hp]; subst. cbn [snd] in Hx.
  cbn [forallb] in Hjson. apply andb_true_iff in Hjson.
  destruct Hjson as [Hjx Hjp].
  destruct (Hx Hjx) as (sx & Hsx & Hparse).
  cbn [flat_map] in *. rewrite (member_text_serialize k x sx Hsx) in *.
  cbn [app] in *.
  destruct fuel as [| f]; [lia |]. rewrite parse_members_S.
  assert (Hkey : forall tail,
             exists t, (quote k ++ ":" ++ sx) ++ tail = String dquote t
                       /\ parse_chars t = Some (k, String ":" (sx ++ tail))).
  { intros tail.
    destruct (parse_chars_quote k (String ":" (sx ++ tail))) as (t & Ht & Hc).
    exists t. split; [| exact Hc].
    rewrite <- Ht, append_assoc. reflexivity. }
  destruct p as [| [k' y] p'].
  - cbn [flat_map join] in *.
    destruct (Hkey (String "}" rest)) as (t & -> & Hchars).
    expect_known. rewrite Hchars. expect_known.
    rewrite !length_append in Hfuel. cbn [String.length] in Hfuel.
    rewrite Hparse by (lia || reflexivity). now do 2 expect_known.
  - assert (Hne : flat_map member_text ((k', y) :: p') <> []).
    { cbn [flat_map forallb] in *. apply andb_true_iff in Hjp.
      destruct Hjp as [Hjy _].
      destruct (json_value_serializes y Hjy) as (sy & Hsy).
      rewrite (member_text_serialize k' y sy Hsy). discriminate. }
    rewrite (join_cons _ _ _ Hne) in *.
    rewrite (append_assoc (quote k ++ ":" ++ sx)).
    destruct (Hkey (("," ++ join "," (flat_map member_text ((k', y) :: p')))
                    ++ String "}" rest)) as (t & -> & Hchars).
    expect_known. rewrite Hchars. expect_known.
    rewrite !length_append in Hfuel. cbn [String.length] in Hfuel.
    rewrite append_assoc. cbn [append].
    rewrite Hparse by (lia || reflexivity). expect_known.
    rewrite (IH Hp Hjp) by (discriminate || lia). reflexivity.
Qed.


(** ** Objects in property order *)

Lemma property_order_app (ks : list string) (k : string) :
  property_order (ks ++ [k])%list = true ->
  property_order ks = true /\ forall k0, In k0 ks -> key_before k0 k = true.
Proof.
  induction ks as [| k1 ks IH]; cbn [app property_order].
  - intros _. split; [reflexivity | intros ? []].
  - intros H. apply andb_true_iff in H. destruct H as [Hall Hrest].
    rewrite forallb_app in Hall. apply andb_true_iff in Hall.
    destruct Hall as [Hks Hk]. cbn [forallb] in Hk.
    apply andb_true_iff in Hk. destruct Hk as [Hk _].
    destruct (IH Hrest) as [Hord Hbefore].
    split; [now rewrite Hks, Hord |].
    intros k0 [<- | Hin]; [exact Hk | now apply Hbefore].
Qed.

Section SetLast.
Context {A : Type}.
Implicit Types (o : list (string * A)) (k : string) (v : A).

Lemma obj_has_false o k :
(forall k0, In k0 (map fst o) -> key_before k0 k = true) ->
obj_has o k = false.
Proof.
unfold obj_has. induction o as [| [k0 v0] r IH]; [reflexivity |].
intros Hb. cbn [obj_lookup].
assert (Hk0 : key_before k0 k = true) by (apply Hb; now left).
unfold key_before in Hk0. apply andb_true_iff in Hk0.
destruct Hk0 as [Hne _]. apply negb_true_iff in Hne. rewrite Hne.
apply IH. intros k1 Hin. apply Hb. now right.
Qed.

Lemma obj_insert_index_last o i k v :
array_index k = Some i ->
(forall k0, In k0 (map fst o) -> key_before k0 k = true) ->
obj_insert_index i k v o = (o ++ [(k, v)])%list.
Proof.
intros Hi. induction o as [| [k0 v0] r IH]; [reflexivity |].
intros Hb. cbn [obj_insert_index app].
assert (Hk0 : key_before k0 k = true) by (apply Hb; now left).
unfold key_before in Hk0. rewrite Hi in Hk0.
apply andb_true_iff in Hk0. destruct Hk0 as [_ Hlt].
destruct (array_index k0) as [j |]; [| discriminate].
apply N.ltb_lt in Hlt.
destruct (N.ltb_spec i j); [lia |].
f_equal. apply IH. intros k1 Hin. apply Hb. now right.
Qed.

(** A key that may follow all the others is added last. *)
Lemma obj_set_last o k v :
(forall k0, In k0 (map fst o) -> key_before k0 k = true) ->
obj_set k v o = (o ++ [(k, v)])%list.
Proof.
intros Hb. unfold obj_set. rewrite (obj_has_false o k Hb).
destruct (array_index k) as [i |] eqn:Hi; [| reflexivity].
now apply obj_insert_index_last.
Qed.

End SetLast.

(** Members written in property order build the object they came from. *)
Lemma build_object_ordered (p : props) :
  property_order (map fst p) = true -> build_object p = p.
Proof.
  unfold build_object.
  induction p as [| [k v] p IH] using rev_ind; [reflexivity |].
  rewrite map_app. cbn [map fst]. intros Hord.
  apply property_order_app in Hord. destruct Hord as [Hord Hbefore].
  rewrite fold_left_app. cbn [fold_left fst snd].
  rewrite (IH Hord). now apply obj_set_last.
Qed.


(** ** Every JSON value reads back *)

Lemma positive_fuel (fuel : nat) (s : string) :
  (2 * String.length s < fuel)%nat -> exists f, fuel = S f.
Proof. destruct fuel; [lia | eauto]. Qed.

Lemma parse_number (f : nat) (n : N) (rest : string) :
  (n <= MAX_SAFE_INTEGER)%N ->
  delimited rest = true ->
  parse_value (S f) (N_to_string n ++ rest) = Some (JNum (Z.of_N n), rest).
Proof.
  intros Hsafe Hd. rewrite parse_value_S.
  destruct (N_to_string_head n) as (c & t & Hs & Hc).
  pose proof (parse_nat_numeral n rest Hsafe Hd) as Hnat.
  rewrite Hs in *. cbn [append] in *.
  destruct (digit_codes c Hc) as (Ho & H1 & H2 & H3 & H4).
  now rewrite (skip_ws_opens _ _ Ho), H1, H2, H3, H4, Hc, Hnat.
Qed.

Lemma serialize_reads_back (v : jsval) : reads_back v.
Proof.
  induction v as [| | b | n | s | l IH | p IH] using jsval_ind;
    unfold reads_back; cbn [json_value serialize].
  - discriminate.
  - intros _. eexists. split; [reflexivity |]. intros fuel rest Hf _.
    destruct (positive_fuel _ _ Hf) as [f ->]. reflexivity.
  - intros _. destruct b; eexists; (split; [reflexivity |]);
      intros fuel rest Hf _;
      destruct (positive_fuel _ _ Hf) as [f ->]; reflexivity.
  - intros Hsafe. apply Z.leb_le in Hsafe.
    eexists. split; [reflexivity |]. intros fuel rest Hf Hd.
    destruct (positive_fuel _ _ Hf) as [f ->].
    destruct n as [| q | q]; unfold Z_to_string.
    + apply (parse_number f 0 rest); [unfold MAX_SAFE_INTEGER; lia | exact Hd].
    + apply (parse_number f (N.pos q) rest);
        [unfold MAX_SAFE_INTEGER; lia | exact Hd].
    + rewrite parse_value_S. cbn [append skip_ws].
      change (is_ws "-") with false. cbv iota.
      change (code_unit "-" =? 34)%N with false.
      change (code_unit "-" =? 91)%N with false.
      change (code_unit "-" =? 123)%N with false.
      change (code_unit "-" =? 45)%N with true. cbv iota.
      rewrite (parse_nat_numeral (N.pos q) rest); [reflexivity | | exact Hd].
      unfold MAX_SAFE_INTEGER. lia.
  - intros _. eexists. split; [reflexivity |]. intros fuel rest Hf _.
    destruct (positive_fuel _ _ Hf) as [f ->]. rewrite parse_value_S.
    destruct (parse_chars_quote s rest) as (t & -> & Hchars).
    cbn [skip_ws]. change (is_ws dquote) with false. cbv iota.
    change (code_unit dquote =? 34)%N with true. cbv iota.
    now rewrite Hchars.
  - intros Hjson. eexists. split; [reflexivity |]. intros fuel rest Hf _.
    destruct (positive_fuel _ _ Hf) as [f ->]. rewrite parse_value_S.
    change (fun x => match serialize x with
                     | Some t => t
                     | None => "null"
                     end) with element_text in *.
    cbn [append skip_ws]. change (is_ws "[") with false. cbv iota.
    change (code_unit "[" =? 34)%N with false.
    change (code_unit "[" =? 91)%N with true. cbv iota.
    rewrite append_assoc. cbn [append].
    destruct l as [| x l'].
    + cbn [map join append]. now expect_known.
    + assert (Hne : x :: l' <> []) by discriminate.
      rewrite !length_append in Hf. cbn [String.length] in Hf.
      rewrite (parse_elements_join (x :: l') IH Hjson Hne) by lia.
      cbn [forallb] in Hjson. apply andb_true_iff in Hjson.
      destruct Hjson as [Hjx _].
      destruct (json_value_serializes x Hjx) as (sx & Hsx).
      destruct (serialize_head x sx Hsx) as (c & t & -> & Hc).
      assert (Hstart : exists t',
                 join "," (map element_text (x :: l')) ++ String "]" rest
                 = String c t').
      { cbn [map]. rewrite (element_text_serialize x _ Hsx).
        destruct l'; cbn [map join append]; eauto. }
      destruct Hstart as (t' & ->).
      now rewrite (proj1 (expect_closing_opens c t' Hc)).
  - intros Hjson. apply andb_true_iff in Hjson.
    destruct Hjson as [Hord Hjson].
    eexists. split; [reflexivity |]. intros fuel rest Hf _.
    destruct (positive_fuel _ _ Hf) as [f ->]. rewrite parse_value_S.
    change (fun kv : string * jsval =>
              let '(k, x) := kv in
              match serialize x with
              | Some t => [quote k ++ ":" ++ t]
              | None => []
              end) with member_text in *.
    cbn [append skip_ws]. change (is_ws "{") with false. cbv iota.
    change (code_unit "{" =? 34)%N with false.
    change (code_unit "{" =? 91)%N with false.
    change (code_unit "{" =? 123)%N with true. cbv iota.
    rewrite append_assoc. cbn [append].
    destruct p as [| [k x] p'].
    + cbn [flat_map join append]. now expect_known.
    + assert (Hne : (k, x) :: p' <> []) by discriminate.
      rewrite !length_append in Hf. cbn [String.length] in Hf.
      rewrite (parse_members_join ((k, x) :: p') IH Hjson Hne) by lia.
      rewrite (build_object_ordered _ Hord).
      cbn [forallb] in Hjson. apply andb_true_iff in Hjson.
      destruct Hjson as [Hjx _].
      destruct (json_value_serializes x Hjx) as (sx & Hsx).
      assert (Hstart : exists t',
                 join "," (flat_map member_text ((k, x) :: p'))
                 ++ String "}" rest = String dquote t').
      { cbn [flat_map]. rewrite (member_text_serialize k x _ Hsx).
        cbn [app]. destruct (flat_map member_text p');
          cbn [join quote append]; eauto. }
      destruct Hstart as (t' & ->). now expect_known.
Qed.

(** [JSON.parse(JSON.stringify(v))] is [v] for every JSON value. *)
Lemma JSON_parse_stringify (v : jsval) :
  json_value v = true ->
  exists text, JSON_stringify v = JStr text /\ JSON_parse text = Some v.
Proof.
  intros Hjson.
  destruct (serialize_reads_back v Hjson) as (s & Hs & Hparse).
  exists s. unfold JSON_stringify, JSON_parse. rewrite Hs.
  split; [reflexivity |].
  specialize (Hparse (2 * String.length s + 2)%nat EmptyString).
  rewrite append_empty in Hparse.
  rewrite Hparse by (lia || reflexivity). reflexivity.
Qed.



(** ** The fuel of the parser is never exhausted *)

Lemma skip_ws_length (s : string) :
  (String.length (skip_ws s) <= String.length s)%nat.
Proof.
  induction s as [| c s IH]; cbn [skip_ws]; [lia |].
  destruct (is_ws c); cbn [String.length]; lia.
Qed.

Lemma cons_char_length (c : ascii) (r : option (string * string))
  (s rest : string) (n : nat) :
  cons_char c r = Some (s, rest) ->
  (forall s' rest', r = Some (s', rest') -> (String.length rest' < n)%nat) ->
  (String.length rest < n)%nat.
Proof.
  destruct r as [[s' rest'] |]; cbn; [| discriminate].
  intros [= <- <-] H. now apply (H s').
Qed.

Lemma parse_chars_length (s str rest : string) :
  parse_chars s = Some (str, rest) ->
  (String.length rest < String.length s)%nat.
Proof.
  revert str rest.
  induction s as [s IH] using (well_founded_induction
    (Wf_nat.well_founded_ltof _ String.length)).
  unfold Wf_nat.ltof in IH.
  intros str rest. destruct s as [| c r]; cbn [parse_chars]; [discriminate |].
  destruct (code_unit c =? 34)%N.
  { intros [= <- <-]. cbn. lia. }
  destruct (code_unit c =? 92)%N.
  - destruct r as [| e r']; [discriminate |].
    destruct (code_unit e =? 117)%N.
    + destruct r' as [| h1 [| h2 [| h3 [| h4 r'']]]]; try discriminate.
      destruct (hex4 h1 h2 h3 h4) as [n |]; [| discriminate].
      destruct (n <? 256)%N; [| discriminate].
      intros H. eapply cons_char_length in H.
      * exact H.
      * intros s' rest' Hr. apply IH in Hr; cbn [String.length] in *; lia.
    + destruct (unescape e); [| discriminate].
      intros H. eapply cons_char_length in H.
      * exact H.
      * intros s' rest' Hr. apply IH in Hr; cbn [String.length] in *; lia.
  - destruct (code_unit c <? 32)%N; [discriminate |].
    intros H. eapply cons_char_length in H.
    + exact H.
    + intros s' rest' Hr. apply IH in Hr; cbn [String.length] in *; lia.
Qed.

Lemma span_digits_length (s : string) :
  (String.length (fst (span_digits s)) + String.length (snd (span_digits s))
   = String.length s)%nat.
Proof.
  induction s as [| c s IH]; cbn [span_digits]; [reflexivity |].
  destruct (is_digit c); [| reflexivity].
  destruct (span_digits s) as [ds rest]. cbn in *. lia.
Qed.

Lemma parse_nat_length (s : string) (n : N) (rest : string) :
  parse_nat s = Some (n, rest) ->
  (String.length rest < String.length s)%nat.
Proof.
  unfold parse_nat. pose proof (span_digits_length s) as Hlen.
  destruct (span_digits s) as [ds r]. cbn [fst snd] in Hlen.
  destruct ds as [| c t]; [discriminate |].
  destruct (_ && _); [discriminate |].
  destruct (starts_fraction r); [discriminate |].
  destruct (NilZero.uint_of_string _); [| discriminate].
  destruct (_ <=? _)%N; [| discriminate].
  intros [= _ <-]. cbn [String.length] in Hlen. lia.
Qed.

Lemma strip_prefix_length (p s rest : string) :
  strip_prefix p s = Some rest ->
  (String.length rest + String.length p = String.length s)%nat.
Proof.
  revert s. induction p as [| a p IH]; intros s; cbn [strip_prefix].
  - intros [= <-]. cbn. lia.
  - destruct s as [| b s]; [discriminate |].
    destruct (code_unit a =? code_unit b)%N; [| discriminate].
    intros H. apply IH in H. cbn [String.length]. lia.
Qed.

Lemma expect_length (n : N) (s rest : string) :
  expect n s = Some rest -> (String.length rest < String.length s)%nat.
Proof.
  unfold expect. pose proof (skip_ws_length s) as Hle.
  destruct (skip_ws s) as [| c r]; [discriminate |].
  destruct (code_unit c =? n)%N; [| discriminate].
  intros [= <-]. cbn [String.length] in Hle. lia.
Qed.

(** What the parser returns as the rest is shorter than what it was
    given. *)
Lemma parse_consumes (f : nat) :
  (forall s v rest, parse_value f s = Some (v, rest) ->
                    (String.length rest < String.length s)%nat)
  /\ (forall s l rest, parse_elements f s = Some (l, rest) ->
                       (String.length rest < String.length s)%nat)
  /\ (forall s l rest, parse_members f s = Some (l, rest) ->
                       (String.length rest < String.length s)%nat).
Proof.
  induction f as [| f (IHv & IHe & IHm)]; [repeat split; discriminate |].
  repeat split.
  - intros s v rest. rewrite parse_value_S.
    pose proof (skip_ws_length s) as Hle.
    destruct (skip_ws s) as [| c r]; [discriminate |].
    cbn [String.length] in Hle.
    destruct (code_unit c =? 34)%N.
    { destruct (parse_chars r) as [[str r'] |] eqn:E; [| discriminate].
      apply parse_chars_length in E. intros [= _ <-]. lia. }
    destruct (code_unit c =? 91)%N.
    { destruct (expect 93 r) as [r' |] eqn:E.
      - apply expect_length in E. intros [= _ <-]. lia.
      - destruct (parse_elements f r) as [[l r'] |] eqn:E'; [| discriminate].
        apply IHe in E'. intros [= _ <-]. lia. }
    destruct (code_unit c =? 123)%N.
    { destruct (expect 125 r) as [r' |] eqn:E.
      - apply expect_length in E. intros [= _ <-]. lia.
      - destruct (parse_members f r) as [[l r'] |] eqn:E'; [| discriminate].
        apply IHm in E'. intros [= _ <-]. lia. }
    destruct (code_unit c =? 45)%N.
    { destruct (parse_nat r) as [[n r'] |] eqn:E; [| discriminate].
      apply parse_nat_length in E. intros [= _ <-]. lia. }
    destruct (is_digit c).
    { destruct (parse_nat (String c r)) as [[n r'] |] eqn:E; [| discriminate].
      apply parse_nat_length in E. cbn [String.length] in E.
      intros [= _ <-]. lia. }
    destruct (strip_prefix "null" (String c r)) as [r' |] eqn:E1.
    { apply strip_prefix_length in E1. cbn [String.length] in E1.
      intros [= _ <-]. lia. }
    destruct (strip_prefix "true" (String c r)) as [r' |] eqn:E2.
    { apply strip_prefix_length in E2. cbn [String.length] in E2.
      intros [= _ <-]. lia. }
    destruct (strip_prefix "false" (String c r)) as [r' |] eqn:E3;
      [| discriminate].
    apply strip_prefix_length in E3. cbn [String.length] in E3.
    intros [= _ <-]. lia.
  - intros s l rest. rewrite parse_elements_S.
    destruct (parse_value f s) as [[v r] |] eqn:Ev; [| discriminate].
    apply IHv in Ev.
    destruct (expect 44 r) as [r' |] eqn:E.
    + apply expect_length in E.
      destruct (parse_elements f r') as [[l' r''] |] eqn:E'; [| discriminate].
      apply IHe in E'. intros [= _ <-]. lia.
    + destruct (expect 93 r) as [r' |] eqn:E'; [| discriminate].
      apply expect_length in E'. intros [= _ <-]. lia.
  - intros s l rest. rewrite parse_members_S.
    destruct (expect 34 s) as [r |] eqn:E0; [| discriminate].
    apply expect_length in E0.
    destruct (parse_chars r) as [[k r1] |] eqn:E1; [| discriminate].
    apply parse_chars_length in E1.
    destruct (expect 58 r1) as [r2 |] eqn:E2; [| discriminate].
    apply expect_length in E2.
    destruct (parse_value f r2) as [[v r3] |] eqn:Ev; [| discriminate].
    apply IHv in Ev.
    destruct (expect 44 r3) as [r4 |] eqn:E4.
    + apply expect_length in E4.
      destruct (parse_members f r4) as [[l' r5] |] eqn:E5; [| discriminate].
      apply IHm in E5. intros [= _ <-]. lia.
    + destruct (expect 125 r3) as [r4 |] eqn:E5; [| discriminate].
      apply expect_length in E5. intros [= _ <-]. lia.
Qed.

(** Past twice the length of the text, one more unit of fuel changes
    nothing. *)
Lemma fuel_stable (f : nat) :
  (forall s, (2 * String.length s + 2 <= f)%nat ->
             parse_value (S f) s = parse_value f s)
  /\ (forall s, (2 * String.length s + 3 <= f)%nat ->
                parse_elements (S f) s = parse_elements f s)
  /\ (forall s, (2 * String.length s + 3 <= f)%nat ->
                parse_members (S f) s = parse_members f s).
Proof.
  induction f as [| f (IHv & IHe & IHm)]; [repeat split; intros; lia |].
  destruct (parse_consumes f) as (Cv & _ & _).
  repeat split.
  - intros s Hf. rewrite (parse_value_S (S f)), (parse_value_S f).
    pose proof (skip_ws_length s) as Hle.
    destruct (skip_ws s) as [| c r]; [reflexivity |].
    cbn [String.length] in Hle.
    rewrite IHe, IHm by lia. reflexivity.
  - intros s Hf. rewrite (parse_elements_S (S f)), (parse_elements_S f).
    rewrite IHv by lia.
    destruct (parse_value f s) as [[v r] |] eqn:Ev; [| reflexivity].
    apply Cv in Ev.
    destruct (expect 44 r) as [r' |] eqn:E; [| reflexivity].
    apply expect_length in E. rewrite IHe by lia. reflexivity.
  - intros s Hf. rewrite (parse_members_S (S f)), (parse_members_S f).
    destruct (expect 34 s) as [r |] eqn:E0; [| reflexivity].
    apply expect_length in E0.
    destruct (parse_chars r) as [[k r1] |] eqn:E1; [| reflexivity].
    apply parse_chars_length in E1.
    destruct (expect 58 r1) as [r2 |] eqn:E2; [| reflexivity].
    apply expect_length in E2.
    rewrite IHv by lia.
    destruct (parse_value f r2) as [[v r3] |] eqn:Ev; [| reflexivity].
    apply Cv in Ev.
    destruct (expect 44 r3) as [r4 |] eqn:E4; [| reflexivity].
    apply expect_length in E4. rewrite IHm by lia. reflexivity.
Qed.

(** The fuel [JSON_parse] supplies is enough for every text: more fuel
    gives the same result. *)
Lemma parse_value_fuel_enough (s : string) (extra : nat) :
  parse_value (2 * String.length s + 2 + extra) s
  = parse_value (2 * String.length s + 2) s.
Proof.
  induction extra as [| n IH].
  - now rewrite Nat.add_0_r.
  - rewrite Nat.add_succ_r, <- IH.
    apply (proj1 (fuel_stable _)). lia.
Qed.


(** ** The request body as JSON *)

Lemma json_is_not_text (ct : string) :
  startsWith ct "application/json" = true -> startsWith ct "text/" = false.
Proof.
  unfold startsWith. destruct ct as [| c ct]; [discriminate |].
  cbn [prefix]. destruct (ascii_dec "a" c) as [<- | _]; [| discriminate].
  reflexivity.
Qed.


(** * Concrete calls *)

Lemma fetch_failure_status_faults_before_HTTPError_witness :
  Response.ok Sample.not_found_fetched = false
  /\ fst (RestClient._fetch (P := Sample.platform Sample.not_found_fetched)
            (K := RestClient.base) Sample.api "/users/7" "GET"
            JUndefined JUndefined JUndefined)
     = Rejected TypeError
  /\ forall e,
       fst (RestClient._fetch
              (P := Sample.platform Sample.not_found_fetched)
              (K := RestClient.base) Sample.api "/users/7" "GET"
              JUndefined JUndefined JUndefined)
       <> Rejected (IsHTTPError e).
Proof.
  split; [reflexivity |].
  refine (fetch_failure_status_faults_before_HTTPError
            (P := Sample.platform Sample.not_found_fetched)
            (K := RestClient.base) Sample.api "/users/7" "GET"
            JUndefined JUndefined JUndefined _ _ Sample.not_found_fetched
            JNull (surjective_pairing _) _ eq_refl eq_refl eq_refl).
  eexists. eexists. split; [left; reflexivity | reflexivity].
Defined.

Lemma fetch_failure_status_raises_HTTPError_witness :
  Response.ok Sample.not_found_fetched = false
  /\ exists e,
       fst (RestClient._fetch
              (P := Sample.platform Sample.not_found_fetched)
              (K := RestClient.base) Sample.api "/users/7" "GET"
              JUndefined JUndefined
              (JObj [("forceType", JStr "application/json")]))
       = Rejected (IsHTTPError e)
       /\ code e = 404
       /\ statusText (P := Sample.platform Sample.not_found_fetched) e
          = Fulfilled "Not Found"
       /\ response e = Data (JObj [("error", JStr "not found")]).
Proof.
  split; [reflexivity |].
  refine (fetch_failure_status_raises_HTTPError
            (P := Sample.platform Sample.not_found_fetched)
            (K := RestClient.base) Sample.api "/users/7" "GET"
            JUndefined JUndefined
            (JObj [("forceType", JStr "application/json")])
            _ _ Sample.not_found_fetched _ "Not Found"
            (surjective_pairing _) _ _ _ _).
  - eexists. eexists. split; [left; reflexivity | reflexivity].
  - reflexivity.
  - reflexivity.
  - reflexivity.
Defined.

(** C2, on the code: [delete] gives [_fetch] four arguments.  The options
    of the call travel as the request body, serialized as JSON, and the
    header they carry is not among the headers sent. *)
Theorem delete_sends_options_as_body :
  RestClient.delete (P := Sample.platform Sample.ok_empty_object)
    (K := RestClient.base) Sample.api "/items/1" JUndefined
    Sample.token_options
  = RestClient._fetch (P := Sample.platform Sample.ok_empty_object)
      (K := RestClient.base) Sample.api "/items/1" "DELETE" (JObj [])
      Sample.token_options JUndefined
  /\ exists text,
       snd (RestClient.delete (P := Sample.platform Sample.ok_empty_object)
              (K := RestClient.base) Sample.api "/items/1" JUndefined
              Sample.token_options)
       = [Sent "https://api.test/items/1"
            [("method", Plain (JStr "DELETE"));
             ("headers", Plain (JObj RestClient.initial_headers));
             ("body", Promise (Fulfilled (Raw (JStr text))))]]
       /\ JSON_parse text = Some Sample.token_options.
Proof.
  split; [reflexivity |]. eexists. split; reflexivity.
Qed.

Lemma parseBody_faults_without_content_type_witness :
  getHeader [("Accept", JStr "application/json")] "content-type" = JNull
  /\ RestClient.parseBody (JObj [("a", JNum 1)])
       [("Accept", JStr "application/json")]
     = Rejected TypeError.
Proof.
  apply parseBody_faults_without_content_type.
  - reflexivity.
  - intros k [<- | []]. vm_compute. discriminate.
Defined.



Lemma parseBody_falsy_identity_witness :
  RestClient.parseBody (JNum 0) RestClient.initial_headers
  = Fulfilled (Raw (JNum 0)).
Proof. apply parseBody_falsy_identity. reflexivity. Defined.

Lemma sent_headers_later_source_wins_witness :
  exists explicit resolved merged,
    prop_or (default Sample.token_options (JObj [])) "headers" (JObj [])
    = Fulfilled explicit
    /\ resolveHeaders (Hooks := RestClient.base) "/users" "GET"
         (default JUndefined (JObj [])) (default JUndefined JNull)
         (default Sample.token_options (JObj []))
       = Fulfilled resolved
    /\ obj_lookup
         [("method", Plain (JStr "GET"));
          ("headers",
           Plain (JObj [("Accept", JStr "application/json");
                        ("Content-Type", JStr "application/json");
                        ("X-Token", JStr "t")]));
          ("body", Promise (Fulfilled (Raw JNull)))]
         "headers"
       = Some (Plain (JObj merged))
    /\ forall k,
         obj_lookup merged k
         = match obj_last (own_entries resolved) k with
           | Some v => Some v
           | None =>
               match obj_last (own_entries explicit) k with
               | Some v => Some v
               | None => obj_last (RestClient.headers Sample.api) k
               end
           end.
Proof.
  refine (sent_headers_later_source_wins
            (P := Sample.platform Sample.ok_empty_object)
            (K := RestClient.base) Sample.api "/users" "GET"
            JUndefined JUndefined Sample.token_options
            _ _ "https://api.test/users" _ (surjective_pairing _) _ _).
  - left. reflexivity.
  - intros passthrough [= <-]. reflexivity.
Defined.

(** Raw [fetchOptions] with a [headers] entry of their own: what is sent
    is that entry, not the merge. *)
Lemma sent_headers_overridden_by_raw_options :
  merged_headers Sample.api (JObj [("X-Trace", JStr "1")]) (JObj [])
  = [("Accept", JStr "application/json");
     ("Content-Type", JStr "application/json");
     ("X-Trace", JStr "1")]
  /\ snd (RestClient._fetch (P := Sample.platform Sample.ok_empty_object)
            (K := RestClient.base) Sample.api "/users" "GET"
            JUndefined JUndefined Sample.passthrough_headers)
     = [Sent "https://api.test/users"
          [("method", Plain (JStr "GET"));
           ("headers", Plain (JObj [("X-Raw", JStr "2")]));
           ("body", Promise (Fulfilled (Raw JNull)))]].
Proof. split; reflexivity. Qed.

Lemma post_moves_query_into_url_witness :
  RestClient.post (P := Sample.platform Sample.ok_empty_object)
    (K := RestClient.base) Sample.api "/users" (JObj [("name", JStr "Ada")])
    (JObj [("query", JObj [("x", JNum 1)])])
  = RestClient._fetch (P := Sample.platform Sample.ok_empty_object)
      (K := RestClient.base) Sample.api "/users" "POST"
      (JObj [("x", JNum 1)]) (JObj [("name", JStr "Ada")]) (JObj [])
  /\ obj_has (A := jsval) [] "query" = false
  /\ exists sent tr',
       snd (RestClient.post (P := Sample.platform Sample.ok_empty_object)
              (K := RestClient.base) Sample.api "/users"
              (JObj [("name", JStr "Ada")])
              (JObj [("query", JObj [("x", JNum 1)])]))
       = Sent "https://api.test/users?x=1" sent :: tr'.
Proof.
  refine (post_moves_query_into_url
            (P := Sample.platform Sample.ok_empty_object)
            (K := RestClient.base) Sample.api "/users"
            (JObj [("name", JStr "Ada")])
            [("query", JObj [("x", JNum 1)])] (JObj []) _ _ _ _).
  - discriminate.
  - reflexivity.
  - reflexivity.
  - reflexivity.
Defined.

Lemma resolveResponse_faults_without_content_type_witness :
  getHeader [("Server", JStr "nginx")] "content-type" = JNull
  /\ RestClient.resolveResponse
       (Response.of_payload 200 "OK" [("Server", JStr "nginx")] "abc")
       JNull (JBool false)
     = Rejected TypeError.
Proof.
  apply (resolveResponse_faults_without_content_type
           (Response.of_payload 200 "OK" [("Server", JStr "nginx")] "abc")).
  - reflexivity.
  - intros k [<- | []]. vm_compute. discriminate.
Defined.

(** * Beyond the claims *)

(** * Beyond the claims *)

(** ** Header lookup *)

Lemma lower_char_alnum (c : ascii) : is_alnum (lower_char c) = is_alnum c.
Proof. destruct c as [[] [] [] [] [] [] [] []]; reflexivity. Qed.

Lemma alnum_leading_lower (s : string) :
  alnum_leading (toLowerCase s) = alnum_leading s.
Proof. destruct s as [| c s]; [reflexivity | apply lower_char_alnum]. Qed.

Lemma getHeader_first_match_entry (headers : props) (name : string) :
  getHeader headers name = match first_match headers name with
                           | Some (_, v) => v
                           | None => JNull
                           end.
Proof.
  unfold first_match. induction headers as [| [k v] r IH]; [reflexivity |].
  cbn [find fst].
  destruct (alnum_leading k && (toLowerCase k =? toLowerCase name)%string)
    eqn:Hm.
  - apply andb_true_iff in Hm. destruct Hm as [Ha Hl].
    apply String.eqb_eq in Hl. now apply getHeader_cons_hit.
  - rewrite getHeader_cons_miss by exact Hm. exact IH.
Qed.

(** X1.  A name of code units below 256, as every string of the embedding
    is, that does not begin with a letter or a digit is found in no
    mapping: [getHeader] answers null for it, even when the mapping holds a
    value under that very key.  (Beyond these code units the Kelvin sign,
    which lower-cases to the letter k, is a name of another kind.) *)
Theorem getHeader_ignores_unusual_names (headers : props) (name : string) :
  alnum_leading name = false -> getHeader headers name = JNull.
Proof.
  intros Hname. rewrite getHeader_first_match_entry. unfold first_match.
  destruct (find _ headers) as [[k v] |] eqn:E; [| reflexivity].
  apply find_some in E. destruct E as [_ Hm]. cbn [fst] in Hm.
  apply andb_true_iff in Hm. destruct Hm as [Ha Hl].
  apply String.eqb_eq in Hl.
  rewrite <- (alnum_leading_lower k), Hl, alnum_leading_lower in Ha.
  congruence.
Qed.

Lemma getHeader_ignores_unusual_names_witness :
  getHeader [("_id", JStr "7"); (":status", JStr "200")] "_id" = JNull.
Proof. apply getHeader_ignores_unusual_names. reflexivity. Defined.

(** X2.  In a mapping in which no two keys are equal up to case, an entry
    whose key begins with a letter or a digit is found under every casing
    of that key: [getHeader] answers the value of the entry. *)
Theorem getHeader_any_casing (headers : props) (k name : string) (v : jsval) :
  case_unambiguous headers ->
  In (k, v) headers ->
  alnum_leading k = true ->
  toLowerCase name = toLowerCase k ->
  getHeader headers name = v.
Proof.
  unfold case_unambiguous, obj_keys.
  induction headers as [| [k1 v1] r IH]; [intros _ [] |].
  cbn [map fst]. intros Hnd Hin Ha Hl.
  inversion Hnd as [| ? ? Hnotin Hnd']; subst.
  destruct (alnum_leading k1 && (toLowerCase k1 =? toLowerCase name)%string)
    eqn:Hm.
  - apply andb_true_iff in Hm. destruct Hm as [Ha1 Hl1].
    apply String.eqb_eq in Hl1.
    rewrite (getHeader_cons_hit k1 v1 r name Ha1 Hl1).
    destruct Hin as [[= -> ->] | Hin]; [reflexivity |].
    exfalso. apply Hnotin. rewrite Hl1, Hl.
    apply in_map, (in_map fst _ _ Hin).
  - rewrite getHeader_cons_miss by exact Hm.
    destruct Hin as [[= -> ->] | Hin].
    + now rewrite Ha, Hl, String.eqb_refl in Hm.
    + now apply IH.
Qed.

Lemma getHeader_any_casing_witness :
  getHeader RestClient.initial_headers "CONTENT-TYPE" = JStr "application/json".
Proof.
  apply (getHeader_any_casing RestClient.initial_headers "Content-Type").
  - repeat constructor; cbn; intuition discriminate.
  - right. left. reflexivity.
  - reflexivity.
  - reflexivity.
Defined.

(** ** The first entry under a predicate on keys, through [obj_set] *)

Section FindSet.
Context {A : Type} (fk : string -> bool).
Implicit Types (o : list (string * A)) (k : string) (v : A).

Lemma find_obj_update o k v :
  find (on_key fk) (obj_update k v o)
  = match find (on_key fk) o with
    | Some (k0, v0) => Some (k0, if (k0 =? k)%string then v else v0)
    | None => None
    end.
Proof.
  induction o as [| [k1 v1] r IH]; [reflexivity |].
  cbn [obj_update find]. unfold on_key at 2. cbn [fst].
  destruct (String.eqb_spec k1 k) as [-> | Hne].
  - cbn [find]. unfold on_key at 1. cbn [fst].
    destruct (fk k) eqn:Hk; [now rewrite String.eqb_refl |].
    destruct (find (on_key fk) r) as [[k0 v0] |] eqn:E; [| reflexivity].
    apply find_some in E. destruct E as [_ Hk0]. unfold on_key in Hk0.
    cbn [fst] in Hk0.
    destruct (String.eqb_spec k0 k) as [-> | _]; [congruence | reflexivity].
  - cbn [find]. unfold on_key at 1. cbn [fst].
    destruct (fk k1); [| exact IH].
    destruct (String.eqb_spec k1 k); [contradiction | reflexivity].
Qed.

Lemma find_obj_insert_index o i k v :
  fk k = false ->
  find (on_key fk) (obj_insert_index i k v o) = find (on_key fk) o.
Proof.
  intros Hk. induction o as [| [k1 v1] r IH].
  - cbn. unfold on_key. cbn [fst]. now rewrite Hk.
  - cbn [obj_insert_index].
    destruct (array_index k1) as [j |]; [destruct (i <? j)%N |];
      cbn [find]; unfold on_key at 1; cbn [fst]; rewrite ?Hk; try reflexivity.
    unfold on_key at 2. cbn [fst]. destruct (fk k1); [reflexivity | exact IH].
Qed.

Lemma find_obj_insert_index_none o i k v :
  fk k = true -> find (on_key fk) o = None ->
  find (on_key fk) (obj_insert_index i k v o) = Some (k, v).
Proof.
  intros Hk. induction o as [| [k1 v1] r IH]; intros E.
  - cbn. unfold on_key. cbn [fst]. now rewrite Hk.
  - cbn [find] in E. unfold on_key at 1 in E. cbn [fst] in E.
    destruct (fk k1) eqn:Hk1; [discriminate |].
    cbn [obj_insert_index].
    destruct (array_index k1) as [j |]; [destruct (i <? j)%N |];
      cbn [find]; unfold on_key at 1; cbn [fst]; rewrite ?Hk, ?Hk1;
      try reflexivity.
    now apply IH.
Qed.

Lemma find_app_one o k v :
  find (on_key fk) (o ++ [(k, v)])
  = match find (on_key fk) o with
    | Some kv => Some kv
    | None => if fk k then Some (k, v) else None
    end.
Proof.
  induction o as [| [k1 v1] r IH]; cbn [app find]; unfold on_key at 1;
    cbn [fst].
  - reflexivity.
  - unfold on_key at 2. cbn [fst]. destruct (fk k1); [reflexivity | exact IH].
Qed.

Lemma find_has o k :
  obj_has o k = true -> fk k = true -> find (on_key fk) o <> None.
Proof.
  unfold obj_has. induction o as [| [k1 v1] r IH]; [discriminate |].
  cbn [obj_lookup find]. unfold on_key at 1. cbn [fst].
  destruct (String.eqb_spec k1 k) as [-> | Hne].
  - intros _ ->. discriminate.
  - intros Hhas Hk. destruct (fk k1); [discriminate | now apply IH].
Qed.

Lemma find_in_keys o k0 v0 :
  find (on_key fk) o = Some (k0, v0) -> obj_has o k0 = true.
Proof.
  unfold obj_has. induction o as [| [k1 v1] r IH]; [discriminate |].
  cbn [find obj_lookup]. unfold on_key at 1. cbn [fst].
  destruct (fk k1).
  - intros [= -> ->]. now rewrite String.eqb_refl.
  - intros E. destruct (k1 =? k0)%string; [reflexivity | now apply IH].
Qed.

(** An entry seen first stays first: [obj_set] changes its value when the
    key is the same, and nothing of it otherwise, as long as no array
    index satisfies the predicate. *)
Lemma find_obj_set o k v k0 v0 :
  (forall i, array_index k = Some i -> fk k = false) ->
  find (on_key fk) o = Some (k0, v0) ->
  find (on_key fk) (obj_set k v o)
  = Some (k0, if (k0 =? k)%string then v else v0).
Proof.
  intros Hidx E. unfold obj_set. destruct (obj_has o k) eqn:Hhas.
  - now rewrite find_obj_update, E.
  - assert (Hne : (k0 =? k)%string = false).
    { apply String.eqb_neq. intros ->.
      apply find_in_keys in E. congruence. }
    rewrite Hne. destruct (array_index k) as [i |] eqn:Hi.
    + rewrite find_obj_insert_index by exact (Hidx i eq_refl). exact E.
    + now rewrite find_app_one, E.
Qed.

Lemma find_fold_set (es : list (string * A)) o k0 v0 :
  (forall k i, array_index k = Some i -> fk k = false) ->
  find (on_key fk) o = Some (k0, v0) ->
  find (on_key fk) (fold_left (fun o kv => obj_set (fst kv) (snd kv) o) es o)
  = Some (k0, match obj_last es k0 with
              | Some v => v
              | None => v0
              end).
Proof.
  intros Hidx. revert o v0.
  induction es as [| [k v] r IH]; intros o v0 E; [exact E |].
  cbn [fold_left fst snd].
  rewrite (IH _ _ (find_obj_set o k v k0 v0 (Hidx k) E)).
  rewrite obj_last_cons. rewrite (String.eqb_sym k k0).
  destruct (obj_last r k0); [reflexivity |].
  destruct (k0 =? k)%string; reflexivity.
Qed.

End FindSet.

Lemma lower_char_digit (c : ascii) : is_digit c = true -> lower_char c = c.
Proof. destruct c as [[] [] [] [] [] [] [] []]; (discriminate || reflexivity). Qed.

Lemma toLowerCase_digits (s : string) :
  all_digits s = true -> toLowerCase s = s.
Proof.
  induction s as [| c s IH]; [reflexivity |].
  cbn [all_digits toLowerCase]. intros H. apply andb_true_iff in H.
  destruct H as [Hc Hs]. now rewrite (lower_char_digit c Hc), (IH Hs).
Qed.

Lemma array_index_digits (k : string) (i : N) :
  array_index k = Some i -> all_digits k = true.
Proof.
  unfold array_index. destruct k as [| c r]; [discriminate |].
  destruct (all_digits (String c r)); [reflexivity | discriminate].
Qed.

(** A name that is no array index is matched by no array index. *)
Lemma index_never_matches (name k : string) (i : N) :
  array_index (toLowerCase name) = None ->
  array_index k = Some i ->
  alnum_leading k && (toLowerCase k =? toLowerCase name)%string = false.
Proof.
  intros Hname Hk. apply andb_false_iff. right. apply String.eqb_neq.
  rewrite (toLowerCase_digits k (array_index_digits k i Hk)).
  intros E. rewrite <- E in Hname. congruence.
Qed.

(** X3.  When the instance has a header that [getHeader] finds under
    [name], at the key [k0], a call changes what [getHeader] reads from the
    merged headers only by giving a header under exactly the key [k0]: the
    value is the one the resolved headers hold under [k0], or else the one
    the explicit headers hold under [k0], or else the value of the
    instance.  A header given under another casing of the name is added
    behind the one of the instance and is not the one read.  The keys of
    the instance are in property order, and the name is no array index. *)
Theorem merged_headers_exact_key_override
  (this : RestClient.t) (explicit resolved : jsval) (name k0 : string)
  (v0 : jsval) :
  property_order (obj_keys (RestClient.headers this)) = true ->
  array_index (toLowerCase name) = None ->
  first_match (RestClient.headers this) name = Some (k0, v0) ->
  getHeader (merged_headers this explicit resolved) name
  = match obj_last (own_entries resolved) k0 with
    | Some v => v
    | None =>
        match obj_last (own_entries explicit) k0 with
        | Some v => v
        | None => v0
        end
    end.
Proof.
  intros Hord Hname Hfirst.
  rewrite getHeader_first_match_entry. unfold merged_headers, first_match.
  change (obj_assign [] (JObj (RestClient.headers this)))
    with (build_object (RestClient.headers this)).
  rewrite (build_object_ordered _ Hord). unfold obj_assign.
  pose (fk := fun k => alnum_leading k
                       && (toLowerCase k =? toLowerCase name)%string).
  assert (Hidx : forall k i, array_index k = Some i -> fk k = false)
    by (intros k i; apply index_never_matches, Hname).
  change (fun kv : string * jsval =>
            alnum_leading (fst kv)
            && (toLowerCase (fst kv) =? toLowerCase name)%string)
    with (fun kv : string * jsval => fk (fst kv)) in *.
  rewrite (find_fold_set fk (own_entries resolved) _ k0
             match obj_last (own_entries explicit) k0 with
             | Some v => v
             | None => v0
             end Hidx).
  - reflexivity.
  - now apply find_fold_set.
Qed.

Lemma merged_headers_exact_key_override_witness :
  getHeader
    (merged_headers Sample.api
       (JObj [("content-type", JStr "text/plain")]) (JObj []))
    "content-type"
  = JStr "application/json".
Proof.
  apply (merged_headers_exact_key_override Sample.api
           (JObj [("content-type", JStr "text/plain")]) (JObj [])
           "content-type" "Content-Type" (JStr "application/json"));
    reflexivity.
Defined.

(** ** Keys stay distinct *)

Section DistinctKeys.
Context {A : Type}.
Implicit Types (o : list (string * A)) (k : string) (v : A).

Lemma obj_has_in o k : obj_has o k = false -> ~ In k (map fst o).
Proof.
  unfold obj_has. induction o as [| [k1 v1] r IH]; [intros _ [] |].
  cbn [obj_lookup map fst].
  destruct (String.eqb_spec k1 k) as [-> | Hne]; [discriminate |].
  intros H [-> | Hin]; [contradiction | now apply IH].
Qed.

Lemma obj_update_keys o k v : map fst (obj_update k v o) = map fst o.
Proof.
  induction o as [| [k1 v1] r IH]; [reflexivity |].
  cbn [obj_update]. destruct (k1 =? k)%string; cbn [map fst];
    [reflexivity | now rewrite IH].
Qed.

Lemma obj_insert_index_keys o i k v k' :
  In k' (map fst (obj_insert_index i k v o)) -> k' = k \/ In k' (map fst o).
Proof.
  induction o as [| [k1 v1] r IH]; cbn [obj_insert_index].
  - intros [<- | []]. now left.
  - destruct (array_index k1) as [j |]; [destruct (i <? j)%N |];
      cbn [map fst]; try (intros [<- | H]; [now left | now right]).
    intros [<- | H]; [right; now left |].
    destruct (IH H) as [-> | Hin]; [now left | right; now right].
Qed.

Lemma obj_insert_index_distinct o i k v :
  NoDup (map fst o) -> ~ In k (map fst o) ->
  NoDup (map fst (obj_insert_index i k v o)).
Proof.
  induction o as [| [k1 v1] r IH]; cbn [obj_insert_index].
  - intros _ _. repeat constructor. intros [].
  - cbn [map fst]. intros Hnd Hnotin.
    destruct (array_index k1) as [j |]; [destruct (i <? j)%N |];
      cbn [map fst]; try (constructor; assumption).
    inversion Hnd as [| ? ? Hk1 Hr]; subst. constructor.
    + intros Hin. apply obj_insert_index_keys in Hin.
      destruct Hin as [-> | Hin]; [apply Hnotin; now left | contradiction].
    + apply IH; [exact Hr |]. intros Hin. apply Hnotin. now right.
Qed.

Lemma obj_set_distinct o k v :
  NoDup (map fst o) -> NoDup (map fst (obj_set k v o)).
Proof.
  intros Hnd. unfold obj_set. destruct (obj_has o k) eqn:Hhas.
  - now rewrite obj_update_keys.
  - apply obj_has_in in Hhas. destruct (array_index k) as [i |].
    + now apply obj_insert_index_distinct.
    + rewrite map_app. cbn [map fst]. apply NoDup_app; repeat split;
        try assumption.
      * repeat constructor. intros [].
      * intros k' Hin [<- | []]. contradiction.
Qed.

Lemma obj_last_distinct o k :
  NoDup (map fst o) -> obj_last o k = obj_lookup o k.
Proof.
  induction o as [| [k1 v1] r IH]; [reflexivity |].
  cbn [map fst]. intros Hnd. inversion Hnd as [| ? ? Hk1 Hr]; subst.
  rewrite obj_last_cons, (IH Hr). cbn [obj_lookup].
  destruct (String.eqb_spec k1 k) as [-> | Hne].
  - destruct (obj_lookup r k) as [v |] eqn:E; [| reflexivity].
    exfalso. apply Hk1. clear - E.
    induction r as [| [k2 v2] r IH]; [discriminate |].
    cbn [obj_lookup] in E. cbn [map fst].
    destruct (String.eqb_spec k2 k) as [-> | _]; [now left | right; auto].
  - destruct (obj_lookup r k); reflexivity.
Qed.

End DistinctKeys.

Lemma fold_set_distinct {A B} (g : B -> A) (es : list (string * B))
  (t : list (string * A)) :
  NoDup (map fst t) ->
  NoDup (map fst (fold_left (fun o kv => obj_set (fst kv) (g (snd kv)) o)
                            es t)).
Proof.
  revert t. induction es as [| [k v] r IH]; intros t Hnd; [exact Hnd |].
  cbn [fold_left]. apply IH. now apply obj_set_distinct.
Qed.

Lemma obj_assign_distinct (t : props) (src : jsval) :
  NoDup (map fst t) -> NoDup (map fst (obj_assign t src)).
Proof. apply (fold_set_distinct (fun x => x)). Qed.

Lemma own_entries_default (v : jsval) :
  own_entries (default v (JObj [])) = own_entries v.
Proof. destruct v; reflexivity. Qed.

(** ** [updateHeaders] and the constructor *)

Lemma updateHeaders_keys_distinct (this : RestClient.t) (new_headers : jsval) :
  NoDup (obj_keys (RestClient.headers
                     (RestClient.updateHeaders this new_headers))).
Proof.
  unfold RestClient.updateHeaders, obj_keys. cbn [RestClient.headers].
  do 2 apply obj_assign_distinct. constructor.
Qed.

Lemma updateHeaders_lookup (this : RestClient.t) (new_headers : jsval)
  (k : string) :
  obj_lookup (RestClient.headers
                (RestClient.updateHeaders this new_headers)) k
  = match obj_last (own_entries new_headers) k with
    | Some v => Some v
    | None => obj_last (RestClient.headers this) k
    end.
Proof.
  unfold RestClient.updateHeaders. cbn [RestClient.headers].
  rewrite !obj_lookup_assign, own_entries_default.
  cbn [own_entries obj_lookup].
  destruct (obj_last (RestClient.headers this) k); reflexivity.
Qed.

(** X4.  [updateHeaders] leaves the base URL and the delay alone and merges
    key by key: no key comes twice in the new headers, and under every key
    the value is the one given last in the argument, or else the one the
    instance had. *)
Theorem updateHeaders_merges (this : RestClient.t) (new_headers : jsval) :
  RestClient.baseUrl (RestClient.updateHeaders this new_headers)
  = RestClient.baseUrl this
  /\ RestClient.simulatedDelay (RestClient.updateHeaders this new_headers)
     = RestClient.simulatedDelay this
  /\ NoDup (obj_keys (RestClient.headers
                        (RestClient.updateHeaders this new_headers)))
  /\ forall k,
       obj_lookup (RestClient.headers
                     (RestClient.updateHeaders this new_headers)) k
       = match obj_last (own_entries new_headers) k with
         | Some v => Some v
         | None => obj_last (RestClient.headers this) k
         end.
Proof.
  repeat split.
  - apply updateHeaders_keys_distinct.
  - apply updateHeaders_lookup.
Qed.

(** X5.  Headers set with [updateHeaders] rank, in the headers a later call
    merges, above the earlier headers of the instance and below the
    explicit and the resolved headers of the call. *)
Theorem updateHeaders_then_merged (this : RestClient.t)
  (new_headers explicit resolved : jsval) (k : string) :
  obj_lookup (merged_headers (RestClient.updateHeaders this new_headers)
                explicit resolved) k
  = match obj_last (own_entries resolved) k with
    | Some v => Some v
    | None =>
        match obj_last (own_entries explicit) k with
        | Some v => Some v
        | None =>
            match obj_last (own_entries new_headers) k with
            | Some v => Some v
            | None => obj_last (RestClient.headers this) k
            end
        end
    end.
Proof.
  rewrite merged_headers_lookup.
  rewrite (obj_last_distinct _ k (updateHeaders_keys_distinct this new_headers)).
  now rewrite updateHeaders_lookup.
Qed.

Lemma truthy_nonempty (s : string) :
  s <> EmptyString -> truthy (JStr s) = true.
Proof. destruct s; [contradiction | reflexivity]. Qed.

Lemma get_prop_rejection (v : jsval) (k : string) (e : jserror) :
  get_prop v k = Rejected e -> e = TypeError.
Proof.
  destruct v; cbn [get_prop]; try discriminate;
    try (destruct (k =? "length")%string; discriminate);
    now intros [= <-].
Qed.

Lemma prop_or_rejection (v : jsval) (k : string) (d : jsval) (e : jserror) :
  prop_or v k d = Rejected e -> e = TypeError.
Proof.
  unfold prop_or. destruct (get_prop v k) eqn:E; cbn [bind]; [discriminate |].
  intros [= <-]. now apply get_prop_rejection in E.
Qed.

Lemma prop_or_object (o : props) (k : string) (d : jsval) :
  prop_or (JObj o) k d = Fulfilled (js_or (obj_get o k) d).
Proof. reflexivity. Qed.





(** ** The delay of the constructor *)

Lemma parseInt_string_digit_led (c : ascii) (t : string) :
  is_digit c = true ->
  parseInt_string (String c t)
  = match NilZero.uint_of_string (fst (span_digits (String c t))) with
    | Some Decimal.Nil | None => None
    | Some d => Some (Z.of_N (N.of_uint d))
    end.
Proof.
  intros Hc. unfold parseInt_string.
  destruct c as [[] [] [] [] [] [] [] []]; try discriminate Hc;
    cbv zeta; cbn [skip_str_ws];
    match goal with
    | |- context [is_str_ws ?c] => change (is_str_ws c) with false
    end; cbv iota;
    destruct (NilZero.uint_of_string _) as [[] |]; reflexivity.
Qed.

Lemma parseInt_string_numeral (n : N) (rest : string) :
  match rest with
  | String c _ => is_digit c = false
  | EmptyString => True
  end ->
  parseInt_string (N_to_string n ++ rest) = Some (Z.of_N n).
Proof.
  intros Hrest.
  destruct (N_to_string_head n) as (c & t & Hs & Hc).
  destruct (to_uint_canonical n) as [Hnil _].
  pose proof (NilZero.usu _ Hnil) as Husu.
  assert (Hspan : span_digits (N_to_string n ++ rest) = (N_to_string n, rest)).
  { unfold N_to_string.
    assert (Heq : NilZero.string_of_uint (N.to_uint n)
                  = NilEmpty.string_of_uint (N.to_uint n))
      by (destruct (N.to_uint n); [contradiction | reflexivity ..]).
    rewrite Heq. now apply span_digits_numeral. }
  rewrite Hs in Hspan |- *. cbn [append] in Hspan |- *.
  rewrite (parseInt_string_digit_led c _ Hc), Hspan. cbn [fst].
  rewrite <- Hs. unfold N_to_string. rewrite Husu.
  rewrite DecimalN.Unsigned.of_to.
  destruct (N.to_uint n); [contradiction | reflexivity ..].
Qed.

(** X8.  Given a base URL that is not empty, the constructor takes the delay
    from [options.simulatedDelay]: a safe integer [n] given as a number, or
    as a string that starts with the decimal numeral of [n] and goes on
    with something that is not a digit (a unit, say), gives the delay
    [n]. *)
Theorem new_reads_delay (baseUrl : string) (o : props) (n : N)
  (rest : string) :
  baseUrl <> EmptyString ->
  (n <= 9007199254740991)%N ->
  match rest with
  | String c _ => is_digit c = false
  | EmptyString => True
  end ->
  obj_get o "simulatedDelay" = JNum (Z.of_N n)
  \/ obj_get o "simulatedDelay" = JStr (N_to_string n ++ rest) ->
  exists this,
    RestClient.new baseUrl (JObj o) = Fulfilled this
    /\ RestClient.simulatedDelay this = Z.of_N n.
Proof.
  intros Hne _ Hrest Hdelay. unfold RestClient.new. cbn [default].
  rewrite (truthy_nonempty baseUrl Hne), !prop_or_object.
  cbn [negb bind get_prop].
  eexists. split; [reflexivity |]. cbn [RestClient.simulatedDelay].
  destruct Hdelay as [-> | ->].
  - cbn [truthy parseInt]. destruct (Z.eqb_spec (Z.of_N n) 0) as [-> | _];
      reflexivity.
  - destruct (N_to_string_head n) as (c & t & Hs & _).
    rewrite truthy_nonempty by (rewrite Hs; discriminate).
    cbn [parseInt to_string]. now rewrite parseInt_string_numeral.
Qed.

Lemma new_reads_delay_witness :
  exists this,
    RestClient.new "https://api.test" (JObj [("simulatedDelay", JStr "50ms")])
    = Fulfilled this
    /\ RestClient.simulatedDelay this = 50.
Proof.
  apply (new_reads_delay "https://api.test"
           [("simulatedDelay", JStr "50ms")] 50 "ms").
  - discriminate.
  - discriminate.
  - reflexivity.
  - right. reflexivity.
Defined.

(** ** [fullRoute] *)

Lemma strip_trailing_removes (a : string) :
  RestClient.strip_trailing_question_mark (a ++ "?") = a.
Proof.
  induction a as [| c a IH]; [reflexivity |].
  cbn [append RestClient.strip_trailing_question_mark].
  destruct (a ++ "?") eqn:E; [destruct a; discriminate |].
  now rewrite IH.
Qed.

Section FullRoute.
Context {P : Platform}.

(** X9.  When the query parameters stringify to the empty text, [fullRoute]
    is the base URL followed by the route, without a question mark at the
    end. *)
Theorem fullRoute_without_query (this : RestClient.t) (url : string)
  (params : jsval) :
  Qs_stringify (default params (JObj [])) = EmptyString ->
  RestClient.fullRoute this url params = RestClient.baseUrl this ++ url.
Proof.
  intros Hqs. unfold RestClient.fullRoute. rewrite Hqs.
  rewrite <- (append_assoc (RestClient.baseUrl this) url).
  apply strip_trailing_removes.
Qed.

(** X10.  When the query parameters stringify to a text that is not empty
    and does not end with a question mark, [fullRoute] is the base URL, the
    route, a question mark and that text. *)
Theorem fullRoute_with_query (this : RestClient.t) (url : string)
  (params : jsval) (q : string) (c : ascii) :
  Qs_stringify (default params (JObj [])) = q ++ String c EmptyString ->
  (code_unit c =? 63)%N = false ->
  RestClient.fullRoute this url params
  = RestClient.baseUrl this ++ url ++ "?" ++ q ++ String c EmptyString.
Proof.
  intros Hqs Hc. unfold RestClient.fullRoute. rewrite Hqs.
  rewrite <- !append_assoc. now apply strip_trailing_keeps.
Qed.

End FullRoute.

Lemma fullRoute_without_query_witness :
  RestClient.fullRoute (P := Sample.platform Sample.ok_empty_object)
    Sample.api "/users" JUndefined
  = "https://api.test/users".
Proof.
  apply (fullRoute_without_query (P := Sample.platform Sample.ok_empty_object)).
  reflexivity.
Defined.

Lemma fullRoute_with_query_witness :
  RestClient.fullRoute (P := Sample.platform Sample.ok_empty_object)
    Sample.api "/users" (JObj [("page", JNum 2)])
  = "https://api.test/users?page=2".
Proof.
  apply (fullRoute_with_query (P := Sample.platform Sample.ok_empty_object)
           Sample.api "/users" (JObj [("page", JNum 2)]) "page=" "2");
    reflexivity.
Defined.

(** ** The request-body codec, the other branches *)

(** X11.  [parseBody] hands a truthy body over unchanged when the
    Content-Type header is a string that starts with none of [text/],
    [application/json] and [multipart/form-data].  The prefix is compared
    as written: a value in another casing is such a string. *)
Theorem parseBody_passes_unknown_types (body : jsval) (headers : props)
  (ct : string) :
  truthy body = true ->
  getHeader headers "content-type" = JStr ct ->
  startsWith ct "text/" = false ->
  startsWith ct "application/json" = false ->
  startsWith ct "multipart/form-data" = false ->
  RestClient.parseBody body headers = Fulfilled (Raw body).
Proof.
  intros Ht Hct H1 H2 H3. unfold RestClient.parseBody.
  rewrite Ht, Hct. cbn [negb call_startsWith bind].
  now rewrite H1, H2, H3.
Qed.

Lemma parseBody_passes_unknown_types_witness :
  RestClient.parseBody (JObj [("a", JNum 1)])
    [("Content-Type", JStr "Application/JSON")]
  = Fulfilled (Raw (JObj [("a", JNum 1)])).
Proof.
  apply (parseBody_passes_unknown_types _ _ "Application/JSON");
    reflexivity.
Defined.





(** ** What the JSON round trip keeps *)

Lemma serialize_normalize (v : jsval) : serialize (normalize v) = serialize v.
Proof.
  induction v as [| | b | n | s | l IH | p IH] using jsval_ind;
    try reflexivity.
  - cbn [normalize serialize]. rewrite map_map.
    match goal with
    | |- Some (_ ++ join _ ?x ++ _) = Some (_ ++ join _ ?y ++ _) =>
        assert (Hxy : x = y); [| now rewrite Hxy]
    end.
    induction IH as [| x l Hx _ IHl]; [reflexivity |].
    cbn [map]. rewrite IHl. f_equal.
    destruct x; try reflexivity; now rewrite Hx.
  - cbn [normalize serialize].
    match goal with
    | |- Some (_ ++ join _ ?x ++ _) = Some (_ ++ join _ ?y ++ _) =>
        assert (Hxy : x = y); [| now rewrite Hxy]
    end.
    induction IH as [| [k x] p Hx _ IHp]; [reflexivity |].
    cbn [flat_map]. rewrite flat_map_app, IHp. f_equal.
    cbn [snd] in Hx.
    destruct x; try reflexivity; cbn [flat_map app]; rewrite Hx;
      now rewrite List.app_nil_r.
Qed.

Lemma normalize_keys (p : props) (k : string) :
  In k (map fst (flat_map (fun kv : string * jsval =>
                             let '(k, x) := kv in
                             match x with
                             | JUndefined => []
                             | _ => [(k, normalize x)]
                             end) p)) ->
  In k (map fst p).
Proof.
  induction p as [| [k1 x] r IH]; [intros [] |].
  cbn [flat_map map fst]. rewrite map_app, in_app_iff.
  intros [Hin | Hin]; [| right; now apply IH].
  destruct x; cbn in Hin; try contradiction;
    destruct Hin as [<- | []]; now left.
Qed.

Lemma normalize_property_order (p : props) :
  property_order (map fst p) = true ->
  property_order
    (map fst (flat_map (fun kv : string * jsval =>
                          let '(k, x) := kv in
                          match x with
                          | JUndefined => []
                          | _ => [(k, normalize x)]
                          end) p)) = true.
Proof.
  induction p as [| [k1 x] r IH]; [reflexivity |].
  cbn [map fst property_order flat_map]. intros H.
  apply andb_true_iff in H. destruct H as [Hall Hord].
  specialize (IH Hord).
  assert (Hcons : property_order
            (k1 :: map fst (flat_map (fun kv : string * jsval =>
                                        let '(k, x) := kv in
                                        match x with
                                        | JUndefined => []
                                        | _ => [(k, normalize x)]
                                        end) r)) = true).
  { cbn [property_order]. rewrite IH, andb_true_r.
    apply forallb_forall. intros k Hin. apply normalize_keys in Hin.
    rewrite forallb_forall in Hall. now apply Hall. }
  destruct x; cbn [app map fst]; try exact Hcons. exact IH.
Qed.

Lemma normalize_json_value (v : jsval) :
  well_formed v = true -> v <> JUndefined -> json_value (normalize v) = true.
Proof.
  induction v as [| | b | n | s | l IH | p IH] using jsval_ind;
    cbn [well_formed normalize json_value]; try reflexivity.
  - intros _ H. now contradiction H.
  - intros H _. exact H.
  - intros H _. induction IH as [| x l Hx _ IHl]; [reflexivity |].
    cbn [forallb map] in *. apply andb_true_iff in H.
    destruct H as [Hwx Hwl]. rewrite (IHl Hwl), andb_true_r.
    destruct x; try reflexivity; apply Hx; (exact Hwx || discriminate).
  - intros H _. apply andb_true_iff in H. destruct H as [Hord Hall].
    rewrite (normalize_property_order p Hord). cbn [andb].
    clear Hord. induction IH as [| [k x] p Hx _ IHp]; [reflexivity |].
    cbn [forallb flat_map] in *. apply andb_true_iff in Hall.
    destruct Hall as [Hwx Hwp]. rewrite forallb_app, (IHp Hwp), andb_true_r.
    cbn [snd] in Hx.
    destruct x; try reflexivity; cbn [forallb]; rewrite andb_true_r;
      apply Hx; (exact Hwx || discriminate).
Qed.

(** A JSON value is what it is read back as. *)
Lemma normalize_json (v : jsval) : json_value v = true -> normalize v = v.
Proof.
  induction v as [| | b | n | s | l IH | p IH] using jsval_ind;
    cbn [json_value normalize]; try reflexivity.
  - intros H. f_equal. induction IH as [| x l Hx _ IHl]; [reflexivity |].
    cbn [forallb map] in *. apply andb_true_iff in H.
    destruct H as [Hjx Hjl]. rewrite (IHl Hjl). f_equal.
    destruct x; try reflexivity; (discriminate Hjx || now apply Hx).
  - intros H. apply andb_true_iff in H. destruct H as [_ Hall]. f_equal.
    induction IH as [| [k x] p Hx _ IHp]; [reflexivity |].
    cbn [forallb flat_map] in *. apply andb_true_iff in Hall.
    destruct Hall as [Hjx Hjp]. rewrite (IHp Hjp). cbn [snd] in Hx.
    destruct x; try discriminate Hjx; cbn [app]; try reflexivity;
      now rewrite (Hx Hjx).
Qed.

Lemma truthy_defined (v : jsval) : truthy v = true -> v <> JUndefined.
Proof. now intros H ->. Qed.

Lemma stringify_parses_normalized (v : jsval) :
  well_formed v = true -> v <> JUndefined ->
  exists text,
    JSON_stringify v = JStr text /\ JSON_parse text = Some (normalize v).
Proof.
  intros Hwf Hdef.
  destruct (JSON_parse_stringify (normalize v) (normalize_json_value v Hwf Hdef))
    as (text & Htext & Hparse).
  exists text. split; [| exact Hparse].
  unfold JSON_stringify in *. now rewrite <- serialize_normalize.
Qed.

(** X13.  Under a Content-Type that starts with [application/json],
    [parseBody] turns every truthy body (its numbers safe integers, the
    keys of its objects in property order) into JSON text, also a body
    that holds [undefined]; the text parses to the body in which an
    [undefined] array element has become null and a property whose value
    is [undefined] is gone, and to the body itself when it holds no
    [undefined]. *)
Theorem parseBody_json_keeps_normalized (body : jsval) (headers : props)
  (ct : string) :
  truthy body = true ->
  well_formed body = true ->
  getHeader headers "content-type" = JStr ct ->
  startsWith ct "application/json" = true ->
  exists text,
    RestClient.parseBody body headers = Fulfilled (Raw (JStr text))
    /\ JSON_parse text = Some (normalize body)
    /\ (json_value body = true -> normalize body = body).
Proof.
  intros Ht Hwf Hct Hjson.
  destruct (stringify_parses_normalized body Hwf (truthy_defined body Ht))
    as (text & Htext & Hparse).
  exists text. split; [| split; [exact Hparse | apply normalize_json]].
  unfold RestClient.parseBody. rewrite Ht, Hct.
  cbn [negb call_startsWith bind].
  now rewrite (json_is_not_text ct Hjson), Hjson, Htext.
Qed.

Lemma parseBody_json_keeps_normalized_witness :
  exists text,
    RestClient.parseBody
      (JObj [("a", JArr [JUndefined; JNum 1]); ("b", JUndefined);
             ("c", JStr "x")])
      RestClient.initial_headers
    = Fulfilled (Raw (JStr text))
    /\ JSON_parse text
       = Some (JObj [("a", JArr [JNull; JNum 1]); ("c", JStr "x")]).
Proof.
  destruct (parseBody_json_keeps_normalized
              (JObj [("a", JArr [JUndefined; JNum 1]); ("b", JUndefined);
                     ("c", JStr "x")])
              RestClient.initial_headers "application/json"
              eq_refl eq_refl eq_refl eq_refl) as (text & H1 & H2 & _).
  exists text. split; [exact H1 | exact H2].
Defined.

(** ** The response codec *)

Lemma truthy_default (v d : jsval) : truthy v = true -> default v d = v.
Proof. destruct v; cbn; (discriminate || reflexivity). Qed.

(** X15.  With a truthy [forceType], [resolveResponse] never looks at the
    headers of the response: two responses that differ in their headers
    only are decoded alike. *)
Theorem resolveResponse_forced_ignores_headers (result : Response.t)
  (headers : props) (forceType resolveStreams : jsval) :
  truthy forceType = true ->
  RestClient.resolveResponse (with_response_headers result headers)
    forceType resolveStreams
  = RestClient.resolveResponse result forceType resolveStreams.
Proof.
  intros Ht. unfold RestClient.resolveResponse.
  rewrite (truthy_default forceType JNull Ht), Ht. reflexivity.
Qed.

Lemma resolveResponse_forced_ignores_headers_witness :
  RestClient.resolveResponse
    (with_response_headers Sample.not_found []) (JStr "application/json")
    JUndefined
  = RestClient.resolveResponse Sample.not_found (JStr "application/json")
      JUndefined.
Proof. apply resolveResponse_forced_ignores_headers. reflexivity. Defined.

(** X16.  The two codecs agree on JSON.  A truthy body (its numbers safe
    integers, the keys of its objects in property order) encoded by
    [parseBody] under a JSON Content-Type and sent back as the payload of a
    response is decoded by [resolveResponse], under a forced type that
    starts with [application/json], to the body in which an [undefined]
    array element has become null and a property whose value is
    [undefined] is gone.  The headers of the response play no part. *)
Theorem codec_echo_round_trip (body : jsval) (headers : props) (ct : string)
  (status : Z) (statusText : string) (response_headers : props)
  (forceType : string) (resolveStreams : jsval) :
  truthy body = true ->
  well_formed body = true ->
  getHeader headers "content-type" = JStr ct ->
  startsWith ct "application/json" = true ->
  startsWith forceType "application/json" = true ->
  exists text,
    RestClient.parseBody body headers = Fulfilled (Raw (JStr text))
    /\ RestClient.resolveResponse
         (Response.of_payload status statusText response_headers text)
         (JStr forceType) resolveStreams
       = Fulfilled (Data (normalize body)).
Proof.
  intros Ht Hwf Hct Hjson Hforced.
  destruct (stringify_parses_normalized body Hwf (truthy_defined body Ht))
    as (text & Htext & Hparse).
  exists text. split.
  - unfold RestClient.parseBody. rewrite Ht, Hct.
    cbn [negb call_startsWith bind].
    now rewrite (json_is_not_text ct Hjson), Hjson, Htext.
  - assert (Htruthy : truthy (JStr forceType) = true)
      by (destruct forceType; [discriminate | reflexivity]).
    unfold RestClient.resolveResponse. cbn [default]. rewrite Htruthy.
    cbn [call_startsWith bind].
    rewrite (json_is_not_text _ Hforced), Hforced.
    cbn [Response.json Response.of_payload]. now rewrite Hparse.
Qed.

Lemma codec_echo_round_trip_witness :
  exists text,
    RestClient.parseBody Sample.holey_body RestClient.initial_headers
    = Fulfilled (Raw (JStr text))
    /\ RestClient.resolveResponse
         (Response.of_payload 201 "Created" [] text)
         (JStr "application/json") JUndefined
       = Fulfilled (Data (JObj [("a", JArr [JNull])])).
Proof.
  refine (codec_echo_round_trip Sample.holey_body
            RestClient.initial_headers "application/json" 201 "Created"
            [] "application/json" JUndefined
            eq_refl eq_refl eq_refl eq_refl eq_refl).
Defined.

(** ** The dispatcher, beyond the claims *)

Lemma default_default (v : jsval) :
  default (default v (JObj [])) JNull = default v (JObj []).
Proof. destruct v; reflexivity. Qed.

Section DispatcherMore.
Context {P : Platform} {K : Hooks}.

(** How a call settles once the transport has answered. *)
Lemma completion_outcome (this : RestClient.t) (options : jsval)
  (result : Response.t) :
  fst (completion this options result)
  = (response <- decoding options result ;;
     if negb (Response.ok result) then
       e <- new_HTTPError (Response.status result)
              (Some (Response.statusText result)) (Some response) ;;
       Rejected (IsHTTPError e)
     else transform response).
Proof.
  unfold completion. rewrite io_bind_lift.
  destruct (decoding options result) as [response | e]; [| reflexivity].
  cbn [bind]. destruct (negb (Response.ok result)).
  - rewrite io_bind_lift. destruct (new_HTTPError _ _ _); reflexivity.
  - destruct (truthy (JNum (RestClient.simulatedDelay this))).
    + unfold RestClient._simulateDelay, io_bind, lift.
      destruct (transform response); reflexivity.
    + rewrite io_bind_lift. reflexivity.
Qed.

(** What a call does once the transport has answered: nothing, or one
    sleep after a response in the success range that could be decoded. *)
Lemma completion_shape (this : RestClient.t) (options : jsval)
  (result : Response.t) :
  snd (completion this options result) = []
  \/ (snd (completion this options result)
      = [Slept (RestClient.simulatedDelay this)]
      /\ RestClient.simulatedDelay this <> 0
      /\ Response.ok result = true
      /\ exists data, decoding options result = Fulfilled data).
Proof.
  unfold completion. rewrite io_bind_lift.
  destruct (decoding options result) as [response | e]; [| now left].
  destruct (Response.ok result); cbn [negb].
  - unfold truthy.
    destruct (Z.eqb_spec (RestClient.simulatedDelay this) 0) as [E | E];
      cbn [negb].
    + left. rewrite io_bind_lift. reflexivity.
    + right. unfold RestClient._simulateDelay, io_bind, lift.
      destruct (transform response); cbn; eauto.
  - left. rewrite io_bind_lift. destruct (new_HTTPError _ _ _); reflexivity.
Qed.

Lemma completion_requests (this : RestClient.t) (options : jsval)
  (result : Response.t) :
  requests (snd (completion this options result)) = [].
Proof.
  destruct (completion_shape this options result) as [-> | (-> & _)];
    reflexivity.
Qed.

(** X17.  A call of [_fetch] transmits at most one request and never
    retries.  Either nothing happens outside and the call is rejected, or
    one request is sent; the only thing that can follow it is one sleep of
    the simulated delay, and only when that delay is not zero and the
    transport has answered with a response in the success range. *)
Theorem _fetch_at_most_one_request (this : RestClient.t)
  (route method : string) (params body options : jsval)
  (outcome : promise decoded) (tr : list event) :
  RestClient._fetch this route method params body options = (outcome, tr) ->
  (tr = [] /\ exists e, outcome = Rejected e)
  \/ exists url sent,
       tr = [Sent url sent]
       \/ (tr = [Sent url sent; Slept (RestClient.simulatedDelay this)]
           /\ RestClient.simulatedDelay this <> 0
           /\ exists result,
                fetch url sent = Fulfilled result
                /\ Response.ok result = true).
Proof.
  rewrite _fetch_phases. cbv zeta.
  destruct (negb (truthy (JStr route))).
  { intros [= <- <-]. left. eauto. }
  rewrite io_bind_lift.
  destruct (prop_or _ "headers" _) as [explicit | e];
    [| intros [= <- <-]; left; eauto].
  rewrite io_bind_lift.
  destruct (resolveHeaders _ _ _ _ _) as [resolved | e];
    [| intros [= <- <-]; left; eauto].
  rewrite io_bind_lift.
  destruct (prop_or _ "fetchOptions" _) as [passthrough | e];
    [| intros [= <- <-]; left; eauto].
  intros Hrun. right. eexists. eexists.
  unfold io_bind in Hrun.
  destruct (fetch _ _) as [result | e] eqn:Hfetch.
  - pose proof (completion_shape this (default options (JObj [])) result)
      as Hshape.
    destruct (completion this _ result) as [r tr'].
    injection Hrun as <- <-. cbn [snd] in Hshape.
    destruct Hshape as [-> | (-> & Hd & Hok & _)].
    + left. reflexivity.
    + right. split; [reflexivity |]. split; [exact Hd |].
      exists result. split; [exact Hfetch | exact Hok].
  - injection Hrun as <- <-. left. reflexivity.
Qed.

(** X18.  When the request of a call was answered by a response in the
    success range whose body the requested decoding resolves to [data],
    the call settles as [transform(data)] does, and it has slept for the
    simulated delay exactly when that delay is not zero. *)
Theorem _fetch_success_transforms (this : RestClient.t)
  (route method : string) (params body options : jsval)
  (outcome : promise decoded) (tr : list event) (result : Response.t)
  (data : decoded) :
  RestClient._fetch this route method params body options = (outcome, tr) ->
  answered tr result ->
  Response.ok result = true ->
  decoding (default options (JObj [])) result = Fulfilled data ->
  outcome = transform data
  /\ (In (Slept (RestClient.simulatedDelay this)) tr
      <-> RestClient.simulatedDelay this <> 0).
Proof.
  intros Hrun (url & sent & Hin & Hanswer) Hok Hdata.
  destruct (_fetch_sent _ _ _ _ _ _ _ _ _ _ Hrun Hin)
    as (explicit & resolved & passthrough & tr' & _ & _ & _ & _ & _ & -> & Hc).
  rewrite Hanswer in Hc. split.
  - pose proof (completion_outcome this (default options (JObj [])) result)
      as Hout.
    rewrite Hc, Hdata, Hok in Hout. exact Hout.
  - unfold completion in Hc. rewrite Hdata, io_bind_lift, Hok in Hc.
    cbn [negb] in Hc. unfold truthy in Hc.
    destruct (Z.eqb_spec (RestClient.simulatedDelay this) 0) as [E | E];
      cbn [negb] in Hc.
    + rewrite io_bind_lift in Hc. unfold lift in Hc.
      injection Hc as _ <-. split; [| contradiction].
      intros [Hs | []]. discriminate.
    + unfold RestClient._simulateDelay, io_bind, lift in Hc.
      destruct (transform data); injection Hc as _ <-;
        (split; [intros _; exact E | intros _; right; left; reflexivity]).
Qed.

(** X19.  When the request of a call was answered by a response outside the
    success range whose body decodes, and the status code has no reason
    phrase, so that the lookup of the phrase throws, the call is rejected
    with what the lookup threw. *)
Theorem _fetch_unknown_status (this : RestClient.t)
  (route method : string) (params body options : jsval)
  (outcome : promise decoded) (tr : list event) (result : Response.t)
  (data : decoded) (err : jserror) :
  RestClient._fetch this route method params body options = (outcome, tr) ->
  answered tr result ->
  Response.ok result = false ->
  decoding (default options (JObj [])) result = Fulfilled data ->
  getStatusText (Response.status result) = Rejected err ->
  outcome = Rejected err.
Proof.
  intros Hrun (url & sent & Hin & Hanswer) Hok Hdata Hphrase.
  destruct (_fetch_sent _ _ _ _ _ _ _ _ _ _ Hrun Hin)
    as (explicit & resolved & passthrough & tr' & _ & _ & _ & _ & _ & _ & Hc).
  rewrite Hanswer in Hc.
  pose proof (completion_outcome this (default options (JObj [])) result)
    as Hout.
  rewrite Hc, Hdata, Hok in Hout. cbn [fst bind negb] in Hout.
  unfold new_HTTPError in Hout. rewrite Hphrase in Hout. exact Hout.
Qed.

(** X20.  The [HTTPError] of a failure status is named [HTTPError], and its
    message is the status text the transport reported, or the reason phrase
    of the code when the transport reported an empty one; nothing follows
    the request, the call does not sleep before it throws. *)
Theorem _fetch_HTTPError_message (this : RestClient.t)
  (route method : string) (params body options : jsval)
  (outcome : promise decoded) (tr : list event) (result : Response.t)
  (data : decoded) (phrase : string) :
  RestClient._fetch this route method params body options = (outcome, tr) ->
  answered tr result ->
  Response.ok result = false ->
  decoding (default options (JObj [])) result = Fulfilled data ->
  getStatusText (Response.status result) = Fulfilled phrase ->
  exists e,
    outcome = Rejected (IsHTTPError e)
    /\ name e = "HTTPError"
    /\ message e = (if (Response.statusText result =? EmptyString)%string
                    then phrase else Response.statusText result)
    /\ exists url sent, tr = [Sent url sent].
Proof.
  intros Hrun (url & sent & Hin & Hanswer) Hok Hdata Hphrase.
  destruct (_fetch_sent _ _ _ _ _ _ _ _ _ _ Hrun Hin)
    as (explicit & resolved & passthrough & tr' & _ & _ & _ & _ & _ & -> & Hc).
  rewrite Hanswer in Hc. unfold completion in Hc.
  rewrite Hdata, io_bind_lift, Hok in Hc. cbn [negb] in Hc.
  unfold new_HTTPError in Hc. rewrite Hphrase in Hc. cbn in Hc.
  injection Hc as <- <-.
  eexists. split; [reflexivity |]. cbn. eauto.
Qed.

(** X21.  When the transport rejects the request, the call is rejected with
    the same reason, and the request is all that happened: the response is
    not decoded, no [HTTPError] is made, the call does not sleep. *)
Theorem _fetch_transport_failure (this : RestClient.t)
  (route method : string) (params body options : jsval)
  (outcome : promise decoded) (tr : list event) (url : string)
  (sent : fetchOptions) (e : jserror) :
  RestClient._fetch this route method params body options = (outcome, tr) ->
  In (Sent url sent) tr ->
  fetch url sent = Rejected e ->
  outcome = Rejected e /\ tr = [Sent url sent].
Proof.
  intros Hrun Hin Hfetch.
  destruct (_fetch_sent _ _ _ _ _ _ _ _ _ _ Hrun Hin)
    as (explicit & resolved & passthrough & tr' & _ & _ & _ & _ & _ & -> & Hc).
  rewrite Hfetch in Hc. destruct Hc as [-> ->]. split; reflexivity.
Qed.

(** X30.  When the decoding of the response fails, the call is rejected
    with that failure, whatever the status of the response: the failure is
    not wrapped into an [HTTPError], [transform] is not run, and the
    request is all that happened. *)
Theorem _fetch_decoding_failure (this : RestClient.t)
  (route method : string) (params body options : jsval)
  (outcome : promise decoded) (tr : list event) (result : Response.t)
  (e : jserror) :
  RestClient._fetch this route method params body options = (outcome, tr) ->
  answered tr result ->
  decoding (default options (JObj [])) result = Rejected e ->
  outcome = Rejected e /\ exists url sent, tr = [Sent url sent].
Proof.
  intros Hrun (url & sent & Hin & Hanswer) Hdec.
  destruct (_fetch_sent _ _ _ _ _ _ _ _ _ _ Hrun Hin)
    as (explicit & resolved & passthrough & tr' & _ & _ & _ & _ & _ & -> & Hc).
  rewrite Hanswer in Hc. unfold completion in Hc.
  rewrite Hdec, io_bind_lift in Hc. injection Hc as <- <-. eauto.
Qed.

(** X22.  A call of [_fetch] transmits a request exactly when the route is
    not empty, the [headers] and the [fetchOptions] of the options can be
    read, and the header hook fulfils.  The encoding of the body is not
    among these conditions: its promise is not awaited. *)
Theorem _fetch_sends_iff (this : RestClient.t)
  (route method : string) (params body options : jsval) :
  (exists url sent,
      In (Sent url sent)
         (snd (RestClient._fetch this route method params body options)))
  <-> (route <> EmptyString
       /\ (exists explicit,
              prop_or (default options (JObj [])) "headers" (JObj [])
              = Fulfilled explicit)
       /\ (exists resolved,
              resolveHeaders route method (default params (JObj []))
                (default body JNull) (default options (JObj []))
              = Fulfilled resolved)
       /\ (exists passthrough,
              prop_or (default options (JObj [])) "fetchOptions" (JObj [])
              = Fulfilled passthrough)).
Proof.
  split.
  - intros (url & sent & Hin).
    destruct (_fetch_sent _ _ _ _ _ _ _ _ _ _ (surjective_pairing _) Hin)
      as (explicit & resolved & passthrough & tr' & He & Hr & Hp & _).
    split; [| split; [| split]; eexists; eassumption].
    intros ->. rewrite _fetch_phases in Hin. exact Hin.
  - intros (Hroute & (explicit & He) & (resolved & Hr) & (passthrough & Hp)).
    rewrite _fetch_phases. cbv zeta.
    rewrite (truthy_route route Hroute). cbn [negb].
    rewrite He, io_bind_lift, Hr, io_bind_lift, Hp, io_bind_lift.
    eexists. eexists. unfold io_bind.
    destruct (fetch _ _) as [result | e].
    + destruct (completion _ _ _) as [r tr']. left. reflexivity.
    + left. reflexivity.
Qed.

(** X23.  The option bag of a transmitted request, key by key: a key of the
    raw [fetchOptions] of the call holds the value given there, [method],
    [headers] and [body] included; any other key is [method] with the
    method of the call, [headers] with the merged headers, [body] with the
    promise that [parseBody] returned, and nothing else. *)
Theorem _fetch_raw_options_override (this : RestClient.t)
  (route method : string) (params body options : jsval)
  (outcome : promise decoded) (tr : list event) (url : string)
  (sent : fetchOptions) :
  RestClient._fetch this route method params body options = (outcome, tr) ->
  In (Sent url sent) tr ->
  exists explicit resolved passthrough,
    prop_or (default options (JObj [])) "headers" (JObj [])
    = Fulfilled explicit
    /\ resolveHeaders route method (default params (JObj []))
         (default body JNull) (default options (JObj []))
       = Fulfilled resolved
    /\ prop_or (default options (JObj [])) "fetchOptions" (JObj [])
       = Fulfilled passthrough
    /\ forall k,
         obj_lookup sent k
         = match obj_last (own_entries passthrough) k with
           | Some v => Some (Plain v)
           | None =>
               obj_lookup
                 [("method", Plain (JStr method));
                  ("headers",
                   Plain (JObj (merged_headers this explicit resolved)));
                  ("body",
                   Promise
                     (RestClient.parseBody (default body JNull)
                        (merged_headers this explicit resolved)))] k
           end.
Proof.
  intros Hrun Hin.
  destruct (_fetch_sent _ _ _ _ _ _ _ _ _ _ Hrun Hin)
    as (explicit & resolved & passthrough & tr' & He & Hr & Hp & _ & -> & _).
  exists explicit, resolved, passthrough. repeat split; try assumption.
  intros k. unfold request_options.
  apply (obj_lookup_fold_set Plain).
Qed.

(** X24.  The simulated delay changes neither the outcome of a call nor the
    requests it transmits. *)
Theorem _fetch_delay_independent (this : RestClient.t) (ms : Z)
  (route method : string) (params body options : jsval) :
  fst (RestClient._fetch (with_delay this ms) route method params body
         options)
  = fst (RestClient._fetch this route method params body options)
  /\ requests
       (snd (RestClient._fetch (with_delay this ms) route method params body
               options))
     = requests (snd (RestClient._fetch this route method params body
                        options)).
Proof.
  rewrite !_fetch_phases. cbv zeta.
  destruct (negb (truthy (JStr route))); [split; reflexivity |].
  rewrite !io_bind_lift.
  destruct (prop_or _ "headers" _) as [explicit | e]; [| split; reflexivity].
  rewrite !io_bind_lift.
  destruct (resolveHeaders _ _ _ _ _) as [resolved | e];
    [| split; reflexivity].
  rewrite !io_bind_lift.
  destruct (prop_or _ "fetchOptions" _) as [passthrough | e];
    [| split; reflexivity].
  change (RestClient.fullRoute (with_delay this ms) route
            (default params (JObj [])))
    with (RestClient.fullRoute this route (default params (JObj []))).
  change (merged_headers (with_delay this ms) explicit resolved)
    with (merged_headers this explicit resolved).
  unfold io_bind.
  destruct (fetch _ _) as [result | e]; [| split; reflexivity].
  pose proof (completion_outcome (with_delay this ms)
                (default options (JObj [])) result) as Ho1.
  pose proof (completion_outcome this (default options (JObj [])) result)
    as Ho2.
  pose proof (completion_requests (with_delay this ms)
                (default options (JObj [])) result) as Hr1.
  pose proof (completion_requests this (default options (JObj [])) result)
    as Hr2.
  destruct (completion (with_delay this ms) _ result) as [r1 tr1].
  destruct (completion this _ result) as [r2 tr2].
  cbn [fst snd] in *. cbn [app requests]. rewrite Ho1, Ho2, Hr1, Hr2.
  split; reflexivity.
Qed.

(** X26.  Whatever the options of a [delete] are, the request it transmits
    has the method DELETE, the headers of the instance merged with the
    resolved ones only, and as body the encoding of the options themselves
    ([{}] when there are none): no explicit header and no raw fetch option
    of the call is used. *)
Theorem delete_never_forwards_options (this : RestClient.t) (route : string)
  (query options : jsval) (url : string) (sent : fetchOptions) :
  In (Sent url sent) (snd (RestClient.delete this route query options)) ->
  exists resolved,
    resolveHeaders route "DELETE" (default query (JObj []))
      (default options (JObj [])) (JObj [])
    = Fulfilled resolved
    /\ url = RestClient.fullRoute this route (default query (JObj []))
    /\ sent
       = [("method", Plain (JStr "DELETE"));
          ("headers", Plain (JObj (merged_headers this (JObj []) resolved)));
          ("body",
           Promise
             (RestClient.parseBody (default options (JObj []))
                (merged_headers this (JObj []) resolved)))].
Proof.
  unfold RestClient.delete. cbv zeta. intros Hin.
  destruct (_fetch_sent _ _ _ _ _ _ _ _ _ _ (surjective_pairing _) Hin)
    as (explicit & resolved & passthrough & tr' & He & Hr & Hp & Hurl & Hsent
        & _).
  cbn in He, Hp. injection He as <-. injection Hp as <-.
  rewrite default_default in Hr, Hsent.
  assert (Hq : default (default query (JObj [])) (JObj [])
               = default query (JObj [])) by (destruct query; reflexivity).
  rewrite Hq in Hr, Hurl.
  exists resolved. split; [exact Hr |]. split; [exact Hurl |]. exact Hsent.
Qed.

(** X27.  A [get] without raw [fetchOptions] transmits exactly three
    options: the method GET, the merged headers, and a body that is a
    promise of null. *)
Theorem get_sends_null_body (this : RestClient.t) (route : string)
  (query options : jsval) (url : string) (sent : fetchOptions) :
  prop_or (default options (JObj [])) "fetchOptions" (JObj [])
  = Fulfilled (JObj []) ->
  In (Sent url sent) (snd (RestClient.get this route query options)) ->
  exists headers,
    sent = [("method", Plain (JStr "GET"));
            ("headers", Plain (JObj headers));
            ("body", Promise (Fulfilled (Raw JNull)))].
Proof.
  unfold RestClient.get. cbv zeta. intros Hnone Hin.
  destruct (_fetch_sent _ _ _ _ _ _ _ _ _ _ (surjective_pairing _) Hin)
    as (explicit & resolved & passthrough & tr' & _ & _ & Hp & _ & Hsent & _).
  assert (Ho : default (default options (JObj [])) (JObj [])
               = default options (JObj [])) by (destruct options; reflexivity).
  rewrite Ho, Hnone in Hp. injection Hp as <-.
  eexists. exact Hsent.
Qed.

(** X28.  An [HTTPError] that could be constructed has the code it was given
    and the name [HTTPError]; reading its [statusText] does not throw, and
    its message is empty only when the reason phrase of the code is. *)
Theorem HTTPError_has_statusText (status : Z) (msg : option string)
  (payload : option decoded) (e : HTTPError) :
  new_HTTPError status msg payload = Fulfilled e ->
  code e = status
  /\ name e = "HTTPError"
  /\ exists phrase,
       statusText e = Fulfilled phrase
       /\ (message e = EmptyString -> phrase = EmptyString).
Proof.
  unfold new_HTTPError, statusText.
  destruct (getStatusText status) as [phrase | err] eqn:Hp; [| discriminate].
  cbn [bind]. intros [= <-]. cbn. split; [reflexivity |].
  split; [reflexivity |]. exists phrase. split; [exact Hp |].
  destruct msg as [m |]; [| auto].
  destruct (String.eqb_spec m EmptyString); auto. intros ->. contradiction.
Qed.
End DispatcherMore.

(** X25.  With the hooks of the base class, [_fetch] reads four keys of its
    options and no other: [headers], [fetchOptions], [forceType] and
    [resolveStreams].  Two option objects that agree on these give the same
    call. *)
Theorem _fetch_reads_four_options {P : Platform} (this : RestClient.t)
  (route method : string) (params body : jsval) (o o' : props) :
  (forall k, In k ["headers"; "fetchOptions"; "forceType"; "resolveStreams"]
             -> obj_get o k = obj_get o' k) ->
  RestClient._fetch (K := RestClient.base) this route method params body
    (JObj o)
  = RestClient._fetch (K := RestClient.base) this route method params body
      (JObj o').
Proof.
  intros H. unfold RestClient._fetch. cbv zeta. cbn [default].
  unfold prop_or. cbn [get_prop bind].
  rewrite (H "headers"), (H "fetchOptions"), (H "forceType"),
    (H "resolveStreams") by (cbn; auto).
  reflexivity.
Qed.

Lemma _fetch_at_most_one_request_witness :
  (snd (RestClient._fetch (P := Sample.platform Sample.ok_empty_object)
          (K := RestClient.base) slow_api "/users" "GET" JUndefined
          JUndefined JUndefined) = []
   /\ exists e,
        fst (RestClient._fetch (P := Sample.platform Sample.ok_empty_object)
               (K := RestClient.base) slow_api "/users" "GET" JUndefined
               JUndefined JUndefined) = Rejected e)
  \/ exists url sent,
       snd (RestClient._fetch (P := Sample.platform Sample.ok_empty_object)
              (K := RestClient.base) slow_api "/users" "GET" JUndefined
              JUndefined JUndefined) = [Sent url sent]
       \/ (snd (RestClient._fetch
                  (P := Sample.platform Sample.ok_empty_object)
                  (K := RestClient.base) slow_api "/users" "GET" JUndefined
                  JUndefined JUndefined)
           = [Sent url sent; Slept (RestClient.simulatedDelay slow_api)]
           /\ RestClient.simulatedDelay slow_api <> 0
           /\ exists result,
                fetch (Platform := Sample.platform Sample.ok_empty_object)
                  url sent = Fulfilled result
                /\ Response.ok result = true).
Proof.
  exact (_fetch_at_most_one_request
           (P := Sample.platform Sample.ok_empty_object)
           (K := RestClient.base) slow_api "/users" "GET" JUndefined
           JUndefined JUndefined _ _ (surjective_pairing _)).
Defined.

Lemma _fetch_success_transforms_witness :
  fst (RestClient._fetch (P := Sample.platform Sample.ok_empty_object)
         (K := RestClient.base) slow_api "/users" "GET" JUndefined
         JUndefined JUndefined)
  = Fulfilled (Data (JObj []))
  /\ (In (Slept 250)
         (snd (RestClient._fetch
                 (P := Sample.platform Sample.ok_empty_object)
                 (K := RestClient.base) slow_api "/users" "GET" JUndefined
                 JUndefined JUndefined))
      <-> 250 <> 0).
Proof.
  refine (_fetch_success_transforms
            (P := Sample.platform Sample.ok_empty_object)
            (K := RestClient.base) slow_api "/users" "GET" JUndefined
            JUndefined JUndefined _ _ Sample.ok_empty_object
            (Data (JObj [])) (surjective_pairing _) _ eq_refl eq_refl).
  eexists. eexists. split; [left; reflexivity | reflexivity].
Defined.

Lemma _fetch_unknown_status_witness :
  Response.ok unknown_status = false
  /\ fst (RestClient._fetch (P := Sample.platform unknown_status)
            (K := RestClient.base) Sample.api "/users" "GET" JUndefined
            JUndefined JUndefined)
     = Rejected (Error "Status code does not exist").
Proof.
  split; [reflexivity |].
  refine (_fetch_unknown_status (P := Sample.platform unknown_status)
            (K := RestClient.base) Sample.api "/users" "GET" JUndefined
            JUndefined JUndefined _ _ unknown_status (Data (JObj []))
            (Error "Status code does not exist") (surjective_pairing _) _
            eq_refl eq_refl eq_refl).
  eexists. eexists. split; [left; reflexivity | reflexivity].
Defined.

Lemma _fetch_HTTPError_message_witness :
  exists e,
    fst (RestClient._fetch
           (P := Sample.platform
                   (Response.of_payload 404 EmptyString Sample.json_headers
                      "{}"))
           (K := RestClient.base) Sample.api "/users/7" "GET" JUndefined
           JUndefined JUndefined)
    = Rejected (IsHTTPError e)
    /\ name e = "HTTPError"
    /\ message e = "Not Found"
    /\ exists url sent,
         snd (RestClient._fetch
                (P := Sample.platform
                        (Response.of_payload 404 EmptyString
                           Sample.json_headers "{}"))
                (K := RestClient.base) Sample.api "/users/7" "GET"
                JUndefined JUndefined JUndefined)
         = [Sent url sent].
Proof.
  refine (_fetch_HTTPError_message
            (P := Sample.platform
                    (Response.of_payload 404 EmptyString Sample.json_headers
                       "{}"))
            (K := RestClient.base) Sample.api "/users/7" "GET" JUndefined
            JUndefined JUndefined _ _
            (Response.of_payload 404 EmptyString Sample.json_headers "{}")
            (Data (JObj [])) "Not Found" (surjective_pairing _) _
            eq_refl eq_refl eq_refl).
  eexists. eexists. split; [left; reflexivity | reflexivity].
Defined.

Lemma _fetch_transport_failure_witness :
  fst (RestClient._fetch (P := offline) (K := RestClient.base) slow_api
         "/users" "GET" JUndefined JUndefined JUndefined)
  = Rejected (Failure (JStr "offline"))
  /\ snd (RestClient._fetch (P := offline) (K := RestClient.base) slow_api
            "/users" "GET" JUndefined JUndefined JUndefined)
     = [Sent "https://api.test/users"
          (request_options "GET" RestClient.initial_headers JNull
             (JObj []))].
Proof.
  refine (_fetch_transport_failure (P := offline) (K := RestClient.base)
            slow_api "/users" "GET" JUndefined JUndefined JUndefined _ _
            "https://api.test/users"
            (request_options "GET" RestClient.initial_headers JNull
               (JObj []))
            (Failure (JStr "offline")) (surjective_pairing _) _ eq_refl).
  left. reflexivity.
Defined.

Lemma _fetch_decoding_failure_witness :
  fst (RestClient._fetch
         (P := Sample.platform
                 (Response.of_payload 404 "Not Found" [] "<h1>Not Found</h1>"))
         (K := RestClient.base) slow_api "/users/7" "GET" JUndefined
         JUndefined (JObj [("forceType", JStr "application/json")]))
  = Rejected SyntaxError
  /\ exists url sent,
       snd (RestClient._fetch
              (P := Sample.platform
                      (Response.of_payload 404 "Not Found" []
                         "<h1>Not Found</h1>"))
              (K := RestClient.base) slow_api "/users/7" "GET" JUndefined
              JUndefined (JObj [("forceType", JStr "application/json")]))
       = [Sent url sent].
Proof.
  refine (_fetch_decoding_failure
            (P := Sample.platform
                    (Response.of_payload 404 "Not Found" []
                       "<h1>Not Found</h1>"))
            (K := RestClient.base) slow_api "/users/7" "GET" JUndefined
            JUndefined (JObj [("forceType", JStr "application/json")]) _ _
            (Response.of_payload 404 "Not Found" [] "<h1>Not Found</h1>")
            SyntaxError (surjective_pairing _) _ eq_refl).
  eexists. eexists. split; [left; reflexivity | reflexivity].
Defined.

Lemma _fetch_raw_options_override_witness :
  exists explicit resolved passthrough,
    prop_or Sample.passthrough_headers "headers" (JObj [])
    = Fulfilled explicit
    /\ Fulfilled (JObj []) = Fulfilled resolved
    /\ prop_or Sample.passthrough_headers "fetchOptions" (JObj [])
       = Fulfilled passthrough
    /\ forall k,
         obj_lookup
           (request_options "GET"
              (merged_headers Sample.api (JObj [("X-Trace", JStr "1")])
                 (JObj []))
              JNull (JObj [("headers", JObj [("X-Raw", JStr "2")])])) k
         = match obj_last (own_entries passthrough) k with
           | Some v => Some (Plain v)
           | None =>
               obj_lookup
                 [("method", Plain (JStr "GET"));
                  ("headers",
                   Plain (JObj (merged_headers Sample.api explicit
                                  resolved)));
                  ("body",
                   Promise
                     (RestClient.parseBody JNull
                        (merged_headers Sample.api explicit resolved)))] k
           end.
Proof.
  refine (_fetch_raw_options_override
            (P := Sample.platform Sample.ok_empty_object)
            (K := RestClient.base) Sample.api "/users" "GET" JUndefined
            JUndefined Sample.passthrough_headers _ _
            "https://api.test/users"
            (request_options "GET"
               (merged_headers Sample.api (JObj [("X-Trace", JStr "1")])
                  (JObj []))
               JNull (JObj [("headers", JObj [("X-Raw", JStr "2")])]))
            (surjective_pairing _) _).
  left. reflexivity.
Defined.

Lemma delete_never_forwards_options_witness :
  exists resolved,
    Fulfilled (JObj []) = Fulfilled resolved
    /\ "https://api.test/items/1"
       = RestClient.fullRoute
           (P := Sample.platform Sample.ok_empty_object) Sample.api
           "/items/1" (JObj [])
    /\ [("method", Plain (JStr "DELETE"));
        ("headers", Plain (JObj RestClient.initial_headers));
        ("body",
         Promise
           (RestClient.parseBody Sample.token_options
              RestClient.initial_headers))]
       = [("method", Plain (JStr "DELETE"));
          ("headers",
           Plain (JObj (merged_headers Sample.api (JObj []) resolved)));
          ("body",
           Promise
             (RestClient.parseBody Sample.token_options
                (merged_headers Sample.api (JObj []) resolved)))].
Proof.
  refine (delete_never_forwards_options
            (P := Sample.platform Sample.ok_empty_object)
            (K := RestClient.base) Sample.api "/items/1" JUndefined
            Sample.token_options "https://api.test/items/1"
            [("method", Plain (JStr "DELETE"));
             ("headers", Plain (JObj RestClient.initial_headers));
             ("body",
              Promise
                (RestClient.parseBody Sample.token_options
                   RestClient.initial_headers))] _).
  left. reflexivity.
Defined.

Lemma get_sends_null_body_witness :
  exists headers,
    [("method", Plain (JStr "GET"));
     ("headers",
      Plain (JObj [("Accept", JStr "application/json");
                   ("Content-Type", JStr "application/json");
                   ("X-Token", JStr "t")]));
     ("body", Promise (Fulfilled (Raw JNull)))]
    = [("method", Plain (JStr "GET"));
       ("headers", Plain (JObj headers));
       ("body", Promise (Fulfilled (Raw JNull)))].
Proof.
  refine (get_sends_null_body
            (P := Sample.platform Sample.ok_empty_object)
            (K := RestClient.base) Sample.api "/users" JUndefined
            Sample.token_options "https://api.test/users"
            [("method", Plain (JStr "GET"));
             ("headers",
              Plain (JObj [("Accept", JStr "application/json");
                           ("Content-Type", JStr "application/json");
                           ("X-Token", JStr "t")]));
             ("body", Promise (Fulfilled (Raw JNull)))] eq_refl _).
  left. reflexivity.
Defined.

Lemma HTTPError_has_statusText_witness :
  code {| message := "Not Found"; name := "HTTPError"; code := 404;
          response := Data (JObj []) |} = 404
  /\ name {| message := "Not Found"; name := "HTTPError"; code := 404;
             response := Data (JObj []) |} = "HTTPError"
  /\ exists phrase,
       statusText (P := Sample.platform Sample.not_found)
         {| message := "Not Found"; name := "HTTPError"; code := 404;
            response := Data (JObj []) |}
       = Fulfilled phrase
       /\ (message {| message := "Not Found"; name := "HTTPError";
                      code := 404; response := Data (JObj []) |}
           = EmptyString -> phrase = EmptyString).
Proof.
  refine (HTTPError_has_statusText (P := Sample.platform Sample.not_found)
            404 None None _ eq_refl).
Defined.

Lemma _fetch_reads_four_options_witness :
  RestClient._fetch (P := Sample.platform Sample.ok_empty_object)
    (K := RestClient.base) Sample.api "/users" "GET" JUndefined JUndefined
    (JObj [("headers", JObj [("X-Token", JStr "t")]);
           ("query", JObj [("x", JNum 1)]);
           ("timeout", JNum 30)])
  = RestClient._fetch (P := Sample.platform Sample.ok_empty_object)
      (K := RestClient.base) Sample.api "/users" "GET" JUndefined JUndefined
      (JObj [("headers", JObj [("X-Token", JStr "t")])]).
Proof.
  apply (_fetch_reads_four_options
           (P := Sample.platform Sample.ok_empty_object)).
  intros k [<- | [<- | [<- | [<- | []]]]]; reflexivity.
Defined.

(** ** The verbs with a body *)

Lemma obj_lookup_delete_other {A} (q k : string) (o : list (string * A)) :
  k <> q -> obj_lookup (obj_delete q o) k = obj_lookup o k.
Proof.
  intros Hne. induction o as [| [k' v] r IH]; [reflexivity |].
  cbn [obj_delete obj_lookup].
  destruct (String.eqb_spec k' q) as [-> | Hq].
  - destruct (String.eqb_spec q k) as [-> | _]; [contradiction | exact IH].
  - cbn [obj_lookup]. now rewrite IH.
Qed.

Section BodyVerbs.
Context {P : Platform} {K : Hooks}.

(** X29.  [post], [put] and [patch] with an options object are [_fetch] with
    their method, with [options.query], or [{}] when that is falsy, as the
    query parameters, and with the options without the [query] key: the key
    is gone and every other key holds what it held. *)
Theorem body_verbs_move_query (this : RestClient.t) (route : string)
  (body : jsval) (o : props) :
  RestClient.post this route body (JObj o)
  = RestClient._fetch this route "POST"
      (if truthy (obj_get o "query") then obj_get o "query" else JObj [])
      body (JObj (obj_delete "query" o))
  /\ RestClient.put this route body (JObj o)
     = RestClient._fetch this route "PUT"
         (if truthy (obj_get o "query") then obj_get o "query" else JObj [])
         body (JObj (obj_delete "query" o))
  /\ RestClient.patch this route body (JObj o)
     = RestClient._fetch this route "PATCH"
         (if truthy (obj_get o "query") then obj_get o "query" else JObj [])
         body (JObj (obj_delete "query" o))
  /\ forall k,
       obj_lookup (obj_delete "query" o) k
       = if (k =? "query")%string then None else obj_lookup o k.
Proof.
  unfold RestClient.post, RestClient.put, RestClient.patch, prop_or, js_or.
  cbn [default get_prop bind delete_prop]. rewrite !io_bind_lift.
  repeat split. intros k.
  destruct (String.eqb_spec k "query") as [-> | Hk].
  - pose proof (obj_has_delete "query" o) as H. unfold obj_has in H.
    destruct (obj_lookup (obj_delete "query" o) "query");
      [discriminate | reflexivity].
  - now apply obj_lookup_delete_other.
Qed.

End BodyVerbs.

